(** * Order and Payment schemas (models/order.py, models/payment.py)

    The two modules declare pydantic models: [OrderBase], [OrderCreate],
    [OrderUpdate], [OrderRead] and their Payment counterparts.  A class body
    is a list of field declarations (name, annotation, default); building an
    instance validates an input mapping against that list.  The development
    embeds the declarations as data, the construction of an instance as a
    function over them, and the identifier generator and the clock behind the
    default factories as explicit state. *)

From Stdlib Require Import ZArith Ascii String PrimFloat.
From stdpp Require Import gmap strings list fin_maps.

Local Open Scope string_scope.
Local Open Scope Z_scope.
Local Set Warnings "-register-all".

(** ** Values *)

(** [datetime.date]. *)
Record date := Date { year : Z; month : Z; day : Z }.

(** The Python values a payload or an instance holds.  A [UUID] is its
    128-bit integer, a [datetime] the microseconds since the epoch (UTC, as
    [datetime.utcnow] gives it), a [float] a binary64. *)
Inductive value :=
| VNone
| VBool (b : bool)
| VInt (z : Z)
| VFloat (x : float)
| VStr (s : string)
| VUUID (u : Z)
| VDate (d : date)
| VDateTime (t : Z)
| VList (l : list value)
| VDict (kvs : list (string * value))
| VModel (cls : string) (kvs : list (string * value)).

(** ** Validation errors *)

Inductive ftype :=
| TStr | TInt | TFloat | TDate | TDateTime | TUUID
| TPersonBase
| TOptional (t : ftype).

#[global] Instance ftype_eq_dec : EqDecision ftype.
Proof. solve_decision. Defined.

Inductive loc_item := Key (s : string) | Index (i : nat).

(** An entry of a [ValidationError]: [missing] for an absent required field,
    [invalid t] for a value the annotation [t] rejects. *)
Inductive err_kind := missing | invalid (t : ftype).

Record error := Error { loc : list loc_item; kind : err_kind }.

(** A validated value, or the entries of the [ValidationError] raised
    instead (at least one). *)
Inductive result (A : Type) :=
| Ok (a : A)
| Err (e : error) (es : list error).
Arguments Ok {A} a.
Arguments Err {A} e es.

Definition errors {A} (r : result A) : list error :=
  match r with
  | Ok _ => []
  | Err e es => e :: es
  end.

(** Errors of a nested value are reported under the field that holds it. *)
Definition under (k : string) (e : error) : error :=
  Error (Key k :: loc e) (kind e).

Definition at_field {A} (k : string) (r : result A) : result A :=
  match r with
  | Ok a => Ok a
  | Err e es => Err (under k e) (under k <$> es)
  end.

(** ** Field declarations *)

(** The default of a field: [Field(...)] (required), [Field(None)], or a
    [default_factory]. *)
Inductive fdefault :=
| Required
| Default (v : value)
| Factory_uuid4
| Factory_utcnow.

Record field := Field { fname : string; ftyp : ftype; fdef : fdefault }.

Record schema := Schema { cname : string; fields : list field }.

Definition names (fs : list field) : list string := fname <$> fs.

(** [class Sub(Base)]: a field declared again keeps its place and takes the
    new declaration, a new field goes to the end. *)
Definition redeclare (own : list field) (f : field) : field :=
  match find (λ g, bool_decide (fname g = fname f)) own with
  | Some g => g
  | None => f
  end.

Definition subclass (base own : list field) : list field :=
  ((redeclare own <$> base) ++
  filter (λ g, fname g ∉ names base) own)%list.

(** ** models/order.py *)

Definition OrderBase : schema :=
  Schema "OrderBase"
    [ Field "id" TUUID Factory_uuid4;
      Field "customer" TPersonBase (Default VNone);
      Field "item" TStr Required;
      Field "quantity" TInt Required;
      Field "price_per_item" TFloat Required;
      Field "order_date" TDate Required ].

Definition OrderCreate : schema :=
  Schema "OrderCreate" (subclass (fields OrderBase) []).

Definition OrderUpdate : schema :=
  Schema "OrderUpdate"
    [ Field "customer" (TOptional TPersonBase) (Default VNone);
      Field "item" (TOptional TStr) (Default VNone);
      Field "quantity" (TOptional TInt) (Default VNone);
      Field "price_per_item" (TOptional TFloat) (Default VNone);
      Field "order_date" (TOptional TDate) (Default VNone) ].

Definition OrderRead : schema :=
  Schema "OrderRead"
    (subclass (fields OrderBase)
       [ Field "id" TUUID Factory_uuid4;
         Field "created_at" TDateTime Factory_utcnow;
         Field "updated_at" TDateTime Factory_utcnow ]).

(** ** models/payment.py *)

Definition PaymentBase : schema :=
  Schema "PaymentBase"
    [ Field "id" TUUID Factory_uuid4;
      Field "sender" TPersonBase (Default VNone);
      Field "receiver" TPersonBase (Default VNone);
      Field "amount" TFloat Required;
      Field "currency" TStr Required;
      Field "status" TStr Required;
      Field "method" TStr Required;
      Field "birth_date" (TOptional TDate) (Default VNone) ].

Definition PaymentCreate : schema :=
  Schema "PaymentCreate" (subclass (fields PaymentBase) []).

Definition PaymentUpdate : schema :=
  Schema "PaymentUpdate"
    [ Field "sender" (TOptional TPersonBase) (Default VNone);
      Field "receiver" (TOptional TPersonBase) (Default VNone);
      Field "amount" (TOptional TFloat) (Default VNone);
      Field "currency" (TOptional TStr) (Default VNone);
      Field "status" (TOptional TStr) (Default VNone);
      Field "method" (TOptional TStr) (Default VNone);
      Field "birth_date" (TOptional TDate) (Default VNone) ].

Definition PaymentRead : schema :=
  Schema "PaymentRead"
    (subclass (fields PaymentBase)
       [ Field "id" TUUID Factory_uuid4;
         Field "created_at" TDateTime Factory_utcnow;
         Field "updated_at" TDateTime Factory_utcnow ]).

(** ** Collaborators *)

(** What the models call outside these two modules: [uuid4] and
    [datetime.utcnow] behind the default factories (the n-th identifier drawn,
    the n-th reading of the clock), the validator of [PersonBase] from
    [models/person.py], and pydantic's conversions of a value that is not yet
    of the annotated type (lax mode: a date from its ISO string, an int from a
    numeric string, ...). *)
Record collaborators := Collaborators {
  uuid4 : nat → Z;
  utcnow : nat → Z;
  person : list (string * value) → result (list (string * value));
  lax_int : value → option Z;
  lax_float : value → option float;
  lax_date : value → option date;
  lax_datetime : value → option Z;
  lax_uuid : value → option Z
}.

(** How many identifiers have been drawn and how often the clock was read. *)
Record world := World { ids_drawn : nat; clock_reads : nat }.

(** ** Validation *)

Definition converted {A} (t : ftype) (inj : A → value) (o : option A) : result value :=
  match o with
  | Some a => Ok (inj a)
  | None => Err (Error [] (invalid t)) []
  end.

(** One value against one annotation.  A value of the annotated type passes
    unchanged; among the values modelled [str] takes nothing else (the
    payloads here hold no [bytes], which pydantic would decode for a [str]
    field); [Optional[T]] takes [None] or what [T] takes; a [PersonBase] field
    takes an instance, or a mapping that the Person validator accepts. *)
Fixpoint coerce (E : collaborators) (t : ftype) (v : value) : result value :=
  match t with
  | TStr => match v with VStr _ => Ok v | _ => Err (Error [] (invalid TStr)) [] end
  | TInt => match v with VInt _ => Ok v | _ => converted TInt VInt (lax_int E v) end
  | TFloat => match v with VFloat _ => Ok v | _ => converted TFloat VFloat (lax_float E v) end
  | TDate => match v with VDate _ => Ok v | _ => converted TDate VDate (lax_date E v) end
  | TDateTime =>
      match v with VDateTime _ => Ok v | _ => converted TDateTime VDateTime (lax_datetime E v) end
  | TUUID => match v with VUUID _ => Ok v | _ => converted TUUID VUUID (lax_uuid E v) end
  | TPersonBase =>
      match v with
      | VModel cls _ =>
          if bool_decide (cls = "PersonBase") then Ok v
          else Err (Error [] (invalid TPersonBase)) []
      | VDict kvs =>
          match person E kvs with
          | Ok p => Ok (VModel "PersonBase" p)
          | Err e es => Err e es
          end
      | _ => Err (Error [] (invalid TPersonBase)) []
      end
  | TOptional t' => match v with VNone => Ok VNone | _ => coerce E t' v end
  end.

(** The default of an absent field.  A factory is called, which draws an
    identifier or reads the clock. *)
Definition default_of (E : collaborators) (f : field) (w : world) : result value * world :=
  match fdef f with
  | Required => (Err (Error [Key (fname f)] missing) [], w)
  | Default v => (Ok v, w)
  | Factory_uuid4 =>
      (Ok (VUUID (uuid4 E (ids_drawn w))), World (S (ids_drawn w)) (clock_reads w))
  | Factory_utcnow =>
      (Ok (VDateTime (utcnow E (clock_reads w))), World (ids_drawn w) (S (clock_reads w)))
  end.

Definition validate_field (E : collaborators) (f : field)
    (raw : gmap string value) (w : world) : result value * world :=
  match raw !! fname f with
  | Some v => (at_field (fname f) (coerce E (ftyp f) v), w)
  | None => default_of E f w
  end.

(** The fields in declaration order; every error is collected. *)
Fixpoint validate_fields (E : collaborators) (fs : list field)
    (raw : gmap string value) (w : world) : gmap string value * list error * world :=
  match fs with
  | [] => (∅, [], w)
  | f :: fs' =>
      let '(r, w1) := validate_field E f raw w in
      let '(vals, errs, w2) := validate_fields E fs' raw w1 in
      match r with
      | Ok v => (<[fname f := v]> vals, errs, w2)
      | Err e es => (vals, (e :: es ++ errs)%list, w2)
      end
  end.

(** An instance: its class, its field values, and [model_fields_set], the
    names of the fields the input supplied. *)
Record model := Model {
  cls : string;
  values : gmap string value;
  fields_set : gset string
}.

(** [Cls.model_validate(raw)], the construction of an instance of [Cls] from
    the mapping [raw].  The models set no [extra]
    option, so a key that names no field is not looked at. *)
Definition validate (E : collaborators) (c : schema)
    (raw : gmap string value) (w : world) : result model * world :=
  let '(vals, errs, w') := validate_fields E (fields c) raw w in
  match errs with
  | [] => (Ok (Model (cname c) vals (dom raw ∩ list_to_set (names (fields c)))), w')
  | e :: es => (Err e es, w')
  end.

(** The four variants of an entity. *)
Record family := Family {
  Base : schema;
  Create : schema;
  Update : schema;
  Read : schema
}.

Definition Order : family := Family OrderBase OrderCreate OrderUpdate OrderRead.
Definition Payment : family := Family PaymentBase PaymentCreate PaymentUpdate PaymentRead.

(** The operations of the layer, per family. *)
Definition validate_create (E : collaborators) (F : family) := validate E (Create F).
Definition validate_update (E : collaborators) (F : family) := validate E (Update F).

(** The fields the input supplied, with their validated values: the keys of
    [model_dump(exclude_unset=True)], each with the field's value as the
    instance holds it (a nested Person stays the validated instance; the dump
    would turn it into a mapping). *)
Definition partial_record (r : model) : gmap string value :=
  filter (λ kv, kv.1 ∈ fields_set r) (values r).

(** Modelled from the spec: [project_read] (sections 4.4 and 6) is not in
    models/order.py or models/payment.py.  The stored record's fields are
    handed to the Read class these modules declare, whose own declarations
    supply [created_at] and [updated_at]. *)
Definition project_read (E : collaborators) (F : family) (rec : model) (w : world)
    : result model * world :=
  validate E (Read F) (values rec) w.

(** Modelled from the spec: the merge of a validated Update onto a stored
    record (section 4.3) is not in models/order.py or models/payment.py.
    The fields the payload supplied replace the stored ones, every other
    field stays as stored, and [updated_at] is set to the current instant. *)
Definition merge (E : collaborators) (stored upd : model) (w : world) : model * world :=
  (Model (cls stored)
     (<["updated_at" := VDateTime (utcnow E (clock_reads w))]>
        (partial_record upd ∪ values stored))
     (fields_set stored),
   World (ids_drawn w) (S (clock_reads w))).

(** ** Typed values *)

(** [has_type t v]: [v] is an instance of the annotation [t]. *)
Fixpoint has_type (t : ftype) (v : value) : bool :=
  match t, v with
  | TStr, VStr _ | TInt, VInt _ | TFloat, VFloat _ => true
  | TDate, VDate _ | TDateTime, VDateTime _ | TUUID, VUUID _ => true
  | TPersonBase, VModel cls _ => bool_decide (cls = "PersonBase")
  | TOptional _, VNone => true
  | TOptional t', _ => has_type t' v
  | _, _ => false
  end.

(** The payload gives the field [f] something its declaration takes: a value
    that validates, or nothing where a default stands in. *)
Definition accepted (E : collaborators) (f : field) (raw : gmap string value) : bool :=
  match raw !! fname f with
  | Some v => match coerce E (ftyp f) v with Ok _ => true | Err _ _ => false end
  | None => match fdef f with Required => false | _ => true end
  end.

(** The value a field takes in an instance built from [raw]. *)
Definition field_value (E : collaborators) (f : field) (raw : gmap string value)
    (v : value) : Prop :=
  match raw !! fname f with
  | Some x => coerce E (ftyp f) x = Ok v
  | None =>
      match fdef f with
      | Required => False
      | Default d => v = d
      | Factory_uuid4 => ∃ n, v = VUUID (uuid4 E n)
      | Factory_utcnow => ∃ n, v = VDateTime (utcnow E n)
      end
  end.

(** The default of [f], when used, is an instance of the annotation. *)
Definition default_typed (f : field) : bool :=
  match fdef f with
  | Required => true
  | Default d => has_type (ftyp f) d
  | Factory_uuid4 => bool_decide (ftyp f = TUUID)
  | Factory_utcnow => bool_decide (ftyp f = TDateTime)
  end.

(** A field that is supplied, or has a plain default, calls no factory. *)
Definition quiet (f : field) (raw : gmap string value) : Prop :=
  is_Some (raw !! fname f) ∨ fdef f = Required ∨ ∃ d, fdef f = Default d.

(** The two fields a Read class adds to its Base. *)
Definition stamps : list field :=
  [ Field "created_at" TDateTime Factory_utcnow;
    Field "updated_at" TDateTime Factory_utcnow ].

(** ** Records the layer produces *)

(** A record comes from a Create payload, validated and projected, or from a
    merge of a validated Update onto a record produced before; the world is
    the one the operation leaves, and other operations may move it on before
    the next one starts. *)
Inductive produced (E : collaborators) (F : family) : model → world → Prop :=
| produced_create raw w rec w1 rd w2 :
    validate_create E F raw w = (Ok rec, w1) →
    project_read E F rec w1 = (Ok rd, w2) →
    produced E F rd w2
| produced_merge stored w raw w0 upd w1 rd w2 :
    produced E F stored w →
    (clock_reads w ≤ clock_reads w0)%nat →
    validate_update E F raw w0 = (Ok upd, w1) →
    merge E stored upd w1 = (rd, w2) →
    produced E F rd w2.

(** [created_at] and [updated_at] are the [i]-th and [j]-th readings of the
    clock. *)
Definition stamped (E : collaborators) (r : model) (i j : nat) : Prop :=
  values r !! "created_at" = Some (VDateTime (utcnow E i)) ∧
  values r !! "updated_at" = Some (VDateTime (utcnow E j)).

(** ** The classes of a family *)

Definition classes (F : family) : list schema := [Base F; Create F; Update F; Read F].

(** The names of the fields declared with [Field(...)]. *)
Definition is_required (f : field) : bool :=
  match fdef f with Required => true | _ => false end.

Definition required (c : schema) : list string :=
  names (filter (λ f, is_required f) (fields c)).

(** Where an error entry comes from: a required field that is absent, or a
    supplied value its annotation rejects. *)
Definition error_of (E : collaborators) (f : field) (raw : gmap string value)
    (x : error) : Prop :=
  (raw !! fname f = None ∧ fdef f = Required ∧ x = Error [Key (fname f)] missing) ∨
  (∃ v y, raw !! fname f = Some v ∧ y ∈ errors (coerce E (ftyp f) v) ∧
          x = under (fname f) y).

(** What a [PersonBase] field looks at: a mapping or an instance of the
    class. *)
Definition person_input (v : value) : bool :=
  match v with
  | VDict _ => true
  | VModel cls _ => bool_decide (cls = "PersonBase")
  | _ => false
  end.

(** ** Reference collaborators *)

(** The collaborators the examples run with.  Identifiers are drawn in a
    fixed sequence, the clock is given by the caller, any mapping is taken as
    a Person (the Person entity comes pre-validated), and a date or a UUID is
    read from its canonical string; no other conversion is made. *)
Module Ref.

Definition digit (a : ascii) : option Z :=
  let n := Z.of_nat (nat_of_ascii a) in
  if (48 <=? n) && (n <=? 57) then Some (n - 48) else None.

Definition hex_digit (a : ascii) : option Z :=
  let n := Z.of_nat (nat_of_ascii a) in
  if (48 <=? n) && (n <=? 57) then Some (n - 48)
  else if (97 <=? n) && (n <=? 102) then Some (n - 87)
  else if (65 <=? n) && (n <=? 70) then Some (n - 55)
  else None.

Fixpoint number (base : Z) (dig : ascii → option Z) (s : string) (acc : Z) : option Z :=
  match s with
  | EmptyString => Some acc
  | String a s' =>
      match dig a with
      | Some d => number base dig s' (base * acc + d)
      | None => None
      end
  end.

Definition leap (y : Z) : bool :=
  (y mod 4 =? 0) && (negb (y mod 100 =? 0) || (y mod 400 =? 0)).

Definition days_in_month (y m : Z) : Z :=
  if m =? 2 then (if leap y then 29 else 28)
  else if (m =? 4) || (m =? 6) || (m =? 9) || (m =? 11) then 30
  else 31.

(** [YYYY-MM-DD]. *)
Definition iso_date (s : string) : option date :=
  if negb (String.length s =? 10)%nat then None
  else if negb (String.eqb (substring 4 1 s) "-" && String.eqb (substring 7 1 s) "-") then None
  else
    match number 10 digit (substring 0 4 s) 0,
          number 10 digit (substring 5 2 s) 0,
          number 10 digit (substring 8 2 s) 0 with
    | Some y, Some m, Some d =>
        if (1 <=? y) && (1 <=? m) && (m <=? 12) && (1 <=? d) && (d <=? days_in_month y m)
        then Some (Date y m d) else None
    | _, _, _ => None
    end.

(** [xxxxxxxx-xxxx-xxxx-xxxx-xxxxxxxxxxxx]. *)
Definition canonical_uuid (s : string) : option Z :=
  if negb (String.length s =? 36)%nat then None
  else if negb (String.eqb (substring 8 1 s) "-" && String.eqb (substring 13 1 s) "-" &&
                String.eqb (substring 18 1 s) "-" && String.eqb (substring 23 1 s) "-")
  then None
  else number 16 hex_digit
         (substring 0 8 s +:+ substring 9 4 s +:+ substring 14 4 s +:+
          substring 19 4 s +:+ substring 24 12 s) 0.

Definition of_str {A} (parse : string → option A) (v : value) : option A :=
  match v with VStr s => parse s | _ => None end.

(** The identifiers [uuid4] hands out, in order. *)
Definition ids (n : nat) : Z := 0x99999999999949998999999999999999 + Z.of_nat n.

Definition collab (clock : nat → Z) : collaborators :=
  Collaborators ids clock (λ kvs, Ok kvs)
    (λ _, None) (λ _, None) (of_str iso_date) (λ _, None) (of_str canonical_uuid).

(** 2025-01-15T10:20:30Z in microseconds. *)
Definition t0 : Z := 1736936430000000.

(** A clock that advances by a microsecond between two readings, and one
    that is read twice within its resolution. *)
Definition ticking : collaborators := collab (λ n, t0 + Z.of_nat n).
Definition coarse : collaborators := collab (λ _, t0).

(** A wall clock that is set back between two readings. *)
Definition set_back : collaborators := collab (λ n, t0 - Z.of_nat n).

Definition start : world := World 0 0.

(** The Create payload of the modules' examples. *)
Definition ada : value :=
  VDict [("uni", VStr "abc1234"); ("first_name", VStr "Ada");
         ("last_name", VStr "Lovelace"); ("email", VStr "ada@example.com");
         ("phone", VStr "+1-212-555-0199"); ("birth_date", VStr "1815-12-10");
         ("addresses", VList
            [VDict [("id", VStr "550e8400-e29b-41d4-a716-446655440000");
                    ("street", VStr "123 Main St"); ("city", VStr "London");
                    ("state", VNone); ("postal_code", VStr "SW1A 1AA");
                    ("country", VStr "UK")]])].

(** 999.99 as a binary64. *)
Definition price : float := 0x1.f3feb851eb852p+9%float.

Definition laptop : gmap string value :=
  <["customer" := ada]> (<["item" := VStr "Laptop"]> (<["quantity" := VInt 2]>
  (<["price_per_item" := VFloat price]> (<["order_date" := VStr "2023-10-05"]> ∅)))).

Definition client_id : Z := 0x550e8400e29b41d4a716446655440000.

Definition laptop_with_id : gmap string value :=
  <["id" := VStr "550e8400-e29b-41d4-a716-446655440000"]> laptop.

End Ref.

(** * Tactics for the concrete classes *)

(** Evaluates the operations of a closed statement, one conjunct at a time
    and from the left, so that each result is known to the next. *)
Ltac run := first [vm_compute; reflexivity | by vm_compute].
Ltac run_all := repeat (split; [run|]); run.

(** Membership in a concrete list of declarations. *)
Ltac in_fields := vm_compute; repeat constructor.

(** Exhibits the declaration of the field named in the goal. *)
Ltac declared_field :=
  lazymatch goal with
  | |- ∃ f, f ∈ fields ?c ∧ fname f = ?k ∧ _ =>
      let r := eval vm_compute in (find (λ f, bool_decide (fname f = k)) (fields c)) in
      lazymatch r with
      | Some ?f => exists f; split; [in_fields | split; reflexivity]
      end
  end.

(** Case analysis on membership in a concrete list of declarations. *)
Ltac each_field H :=
  vm_compute in H;
  repeat (apply elem_of_cons in H as [->|H]);
  [.. | by apply elem_of_nil in H].

(** * Examples *)

(** The classes as pydantic sees them. *)
Example OrderCreate_fields : fields OrderCreate = fields OrderBase.
Proof. reflexivity. Qed.

Example OrderRead_names :
  names (fields OrderRead) =
  ["id"; "customer"; "item"; "quantity"; "price_per_item"; "order_date";
   "created_at"; "updated_at"].
Proof. reflexivity. Qed.

Example PaymentRead_names :
  names (fields PaymentRead) =
  ["id"; "sender"; "receiver"; "amount"; "currency"; "status"; "method"; "birth_date";
   "created_at"; "updated_at"].
Proof. reflexivity. Qed.

(** The example payload of the modules validates to the values it carries. *)
Example laptop_validates :
  ∃ rec,
    validate_create Ref.ticking Order Ref.laptop Ref.start = (Ok rec, World 1 0) ∧
    values rec !! "quantity" = Some (VInt 2) ∧
    values rec !! "price_per_item" = Some (VFloat Ref.price) ∧
    values rec !! "order_date" = Some (VDate (Date 2023 10 5)) ∧
    fields_set rec = {[ "customer"; "item"; "quantity"; "price_per_item"; "order_date" ]}.
Proof. eexists. run_all. Qed.

(** * Properties of validation *)

Section validation.
Context (E : collaborators).
Implicit Types (f g : field) (fs : list field) (c : schema).
Implicit Types (raw : gmap string value) (w : world) (k : string).

(** ** Only the declared keys are read *)

Lemma validate_field_agree f raw1 raw2 w :
  raw1 !! fname f = raw2 !! fname f →
  validate_field E f raw1 w = validate_field E f raw2 w.
Proof. unfold validate_field. by intros ->. Qed.

Lemma validate_fields_agree fs raw1 raw2 w :
  (∀ k, k ∈ names fs → raw1 !! k = raw2 !! k) →
  validate_fields E fs raw1 w = validate_fields E fs raw2 w.
Proof.
  revert w. induction fs as [|f fs IH]; intros w Hagree; [done|].
  cbn [validate_fields].
  rewrite (validate_field_agree f raw1 raw2) by (apply Hagree; set_solver).
  destruct (validate_field E f raw2 w) as [r w1].
  rewrite IH; [done|]. intros k Hk. apply Hagree. by apply list_elem_of_further.
Qed.

Lemma fields_set_agree (ns : list string) raw1 raw2 :
  (∀ k, k ∈ ns → raw1 !! k = raw2 !! k) →
  dom raw1 ∩ list_to_set ns =@{gset string} dom raw2 ∩ list_to_set ns.
Proof.
  intros Hagree. apply set_eq. intros k.
  rewrite !elem_of_intersection, !elem_of_dom, elem_of_list_to_set.
  split; intros [Hk Hin]; (split; [|done]).
  - by rewrite <- Hagree.
  - by rewrite Hagree.
Qed.

Lemma validate_agree c raw1 raw2 w :
  (∀ k, k ∈ names (fields c) → raw1 !! k = raw2 !! k) →
  validate E c raw1 w = validate E c raw2 w.
Proof.
  intros Hagree. unfold validate.
  rewrite (validate_fields_agree _ raw1 raw2) by done.
  by rewrite (fields_set_agree _ raw1 raw2).
Qed.

(** ** One step of the loop over the fields *)

Lemma validate_fields_cons f fs raw w :
  validate_fields E (f :: fs) raw w =
  let '(r, w1) := validate_field E f raw w in
  let '(vals, errs, w2) := validate_fields E fs raw w1 in
  (match r with Ok v => <[fname f := v]> vals | Err _ _ => vals end,
   (errors r ++ errs)%list, w2).
Proof.
  cbn [validate_fields]. destruct (validate_field E f raw w) as [r w1].
  destruct (validate_fields E fs raw w1) as [[vals errs] w2]. by destruct r.
Qed.

Lemma validate_field_present f raw w v :
  raw !! fname f = Some v →
  validate_field E f raw w = (at_field (fname f) (coerce E (ftyp f) v), w).
Proof. unfold validate_field. by intros ->. Qed.

Lemma validate_field_absent f raw w :
  raw !! fname f = None → validate_field E f raw w = default_of E f w.
Proof. unfold validate_field. by intros ->. Qed.

Lemma errors_at_field {A} k (r : result A) :
  errors (at_field k r) = under k <$> errors r.
Proof. by destruct r. Qed.

Lemma errors_nil {A} (r : result A) : errors r = [] → ∃ a, r = Ok a.
Proof. destruct r; [eauto|done]. Qed.

(** ** What a result says about each field *)

Lemma validate_fields_dom fs raw w vals errs w' k :
  validate_fields E fs raw w = (vals, errs, w') →
  is_Some (vals !! k) → k ∈ names fs.
Proof.
  revert w vals errs w'. induction fs as [|f fs IH]; intros w vals errs w'.
  - intros [= <- _ _]. rewrite lookup_empty. by intros [? ?].
  - rewrite validate_fields_cons.
    destruct (validate_field E f raw w) as [r w1].
    destruct (validate_fields E fs raw w1) as [[vals' errs'] w2] eqn:Hrest.
    specialize (IH _ _ _ _ Hrest). intros [= <- _ _].
    destruct r as [v|e es]; [|by intros ?; apply list_elem_of_further, IH].
    destruct (decide (fname f = k)) as [<-|Hne]; [intros _; apply list_elem_of_here|].
    rewrite lookup_insert_ne by done. by intros ?; apply list_elem_of_further, IH.
Qed.

(** An absent required field is reported as missing, whatever the rest of
    the payload holds. *)
Lemma validate_fields_missing fs raw w vals errs w' f :
  validate_fields E fs raw w = (vals, errs, w') →
  f ∈ fs → fdef f = Required → raw !! fname f = None →
  Error [Key (fname f)] missing ∈ errs.
Proof.
  revert w vals errs w'. induction fs as [|g fs IH]; intros w vals errs w'.
  - intros _ Hin. by apply elem_of_nil in Hin.
  - rewrite validate_fields_cons.
    destruct (validate_field E g raw w) as [r w1] eqn:Hg.
    destruct (validate_fields E fs raw w1) as [[vals' errs'] w2] eqn:Hrest.
    intros [= _ <- _] [->|Hin]%elem_of_cons Hreq Hnone.
    + rewrite validate_field_absent in Hg by done.
      unfold default_of in Hg. rewrite Hreq in Hg. injection Hg as <- _.
      set_solver.
    + specialize (IH _ _ _ _ Hrest Hin Hreq Hnone). set_solver.
Qed.

(** A supplied field holds its validated value, or is reported under its
    own name. *)
Lemma validate_fields_present fs raw w vals errs w' f v :
  validate_fields E fs raw w = (vals, errs, w') →
  NoDup (names fs) → f ∈ fs → raw !! fname f = Some v →
  match coerce E (ftyp f) v with
  | Ok v' => vals !! fname f = Some v'
  | Err e es => under (fname f) e ∈ errs
  end.
Proof.
  revert w vals errs w'. induction fs as [|g fs IH]; intros w vals errs w'.
  - intros _ _ Hin. by apply elem_of_nil in Hin.
  - rewrite validate_fields_cons.
    destruct (validate_field E g raw w) as [r w1] eqn:Hg.
    destruct (validate_fields E fs raw w1) as [[vals' errs'] w2] eqn:Hrest.
    intros [= <- <- _] [Hfresh Hnd]%NoDup_cons [->|Hin]%elem_of_cons Hsome.
    + rewrite (validate_field_present _ _ _ v) in Hg by done. injection Hg as <- _.
      destruct (coerce E (ftyp g) v) as [v'|e es]; cbn.
      * apply lookup_insert_eq.
      * set_solver.
    + specialize (IH _ _ _ _ Hrest Hnd Hin Hsome).
      assert (fname g ≠ fname f) as Hne.
      { intros Heq. apply Hfresh. rewrite Heq. by apply list_elem_of_fmap_2. }
      destruct (coerce E (ftyp f) v) as [v'|e es].
      * destruct r; [by rewrite lookup_insert_ne|done].
      * set_solver.
Qed.

(** In a successful validation every field has the value its declaration
    gives it. *)
Lemma validate_fields_value fs raw w vals w' f :
  validate_fields E fs raw w = (vals, [], w') →
  NoDup (names fs) → f ∈ fs →
  ∃ v, vals !! fname f = Some v ∧ field_value E f raw v.
Proof.
  revert w vals w'. induction fs as [|g fs IH]; intros w vals w'.
  - intros _ _ Hin. by apply elem_of_nil in Hin.
  - rewrite validate_fields_cons.
    destruct (validate_field E g raw w) as [r w1] eqn:Hg.
    destruct (validate_fields E fs raw w1) as [[vals' errs'] w2] eqn:Hrest.
    intros [= <- [Hr ->]%app_eq_nil <-] [Hfresh Hnd]%NoDup_cons Hin.
    apply errors_nil in Hr as [v ->].
    apply elem_of_cons in Hin as [->|Hin].
    + exists v. split; [apply lookup_insert_eq|].
      unfold field_value. unfold validate_field, default_of in Hg.
      destruct (raw !! fname g) as [x|].
      * injection Hg as Hg _. by destruct (coerce E (ftyp g) x).
      * destruct (fdef g); simplify_eq; eauto.
    + destruct (IH _ _ _ Hrest Hnd Hin) as (v' & Hv' & Hfv).
      exists v'. split; [|done]. rewrite lookup_insert_ne; [done|].
      intros Heq. apply Hfresh. rewrite Heq. by apply list_elem_of_fmap_2.
Qed.

(** An absent field with a plain default holds that default. *)
Lemma validate_fields_default fs raw w vals w' f d :
  validate_fields E fs raw w = (vals, [], w') →
  NoDup (names fs) → f ∈ fs → raw !! fname f = None → fdef f = Default d →
  vals !! fname f = Some d.
Proof.
  intros Hfs Hnd Hin Hnone Hdef.
  destruct (validate_fields_value _ _ _ _ _ _ Hfs Hnd Hin) as (v & Hv & Hfv).
  unfold field_value in Hfv. rewrite Hnone, Hdef in Hfv. by subst.
Qed.

(** ** Values of the annotated type *)

Lemma coerce_has_type t v v' : coerce E t v = Ok v' → has_type t v'.
Proof.
  revert v v'. induction t; intros v v'; cbn [coerce];
    try (destruct v; unfold converted;
         repeat match goal with |- context [match ?o with _ => _ end] => destruct o end;
         by intros [= <-]).
  - destruct v; try (by intros [= <-]).
    + destruct (person E kvs); by intros [= <-].
    + case_bool_decide as Hc; intros [= <-]. cbn. by rewrite bool_decide_eq_true_2.
  - destruct v; try (by intros [= <-]);
      intros Hc; apply IHt in Hc; by destruct v'.
Qed.

Lemma coerce_idem t v : has_type t v → coerce E t v = Ok v.
Proof.
  revert v. induction t; intros v; try (by destruct v).
  - destruct v; try done. cbn [coerce has_type]. by case_bool_decide.
  - destruct v; cbn [coerce has_type]; try done; intros Hc; by apply IHt.
Qed.

(** ** The result of [validate] *)

Lemma validate_Ok c raw w rec w' :
  validate E c raw w = (Ok rec, w') →
  validate_fields E (fields c) raw w = (values rec, [], w') ∧
  cls rec = cname c ∧
  fields_set rec = dom raw ∩ list_to_set (names (fields c)).
Proof.
  unfold validate.
  destruct (validate_fields E (fields c) raw w) as [[vals errs] w1].
  destruct errs; [|done]. by intros [= <- <-].
Qed.

Lemma validate_Err c raw w e es w' :
  validate E c raw w = (Err e es, w') →
  ∃ vals, validate_fields E (fields c) raw w = (vals, e :: es, w').
Proof.
  unfold validate.
  destruct (validate_fields E (fields c) raw w) as [[vals errs] w1].
  destruct errs; [done|]. intros [= <- <- <-]. eauto.
Qed.

Lemma validate_missing c raw w f :
  f ∈ fields c → fdef f = Required → raw !! fname f = None →
  ∃ e es w', validate E c raw w = (Err e es, w') ∧
             Error [Key (fname f)] missing ∈ e :: es.
Proof.
  intros Hin Hreq Hnone. unfold validate.
  destruct (validate_fields E (fields c) raw w) as [[vals errs] w1] eqn:Hfs.
  pose proof (validate_fields_missing _ _ _ _ _ _ _ Hfs Hin Hreq Hnone) as Hmiss.
  destruct errs as [|e es]; [by apply elem_of_nil in Hmiss|]. eauto 6.
Qed.

(** Where every field is accepted, validation succeeds. *)
Lemma validate_fields_accepted fs raw w :
  (∀ f, f ∈ fs → accepted E f raw) →
  ∃ vals w', validate_fields E fs raw w = (vals, [], w').
Proof.
  revert w. induction fs as [|f fs IH]; intros w Hacc; [by eexists _, _|].
  rewrite validate_fields_cons.
  assert (∃ v w1, validate_field E f raw w = (Ok v, w1)) as (v & w1 & ->).
  { assert (accepted E f raw) as Hf by (apply Hacc; set_solver).
    unfold accepted in Hf. unfold validate_field, default_of.
    destruct (raw !! fname f) as [x|].
    - destruct (coerce E (ftyp f) x); [by eexists _, _|done].
    - destruct (fdef f); [done|by eexists _, _..]. }
  destruct (IH w1) as (vals & w' & ->); [intros; apply Hacc; set_solver|].
  by eexists _, _.
Qed.

Lemma validate_accepted c raw w :
  (∀ f, f ∈ fields c → accepted E f raw) →
  ∃ rec w', validate E c raw w = (Ok rec, w').
Proof.
  intros Hacc. unfold validate.
  destruct (validate_fields_accepted (fields c) raw w Hacc) as (vals & w' & ->).
  by eexists _, _.
Qed.

Lemma validate_fields_quiet fs raw w vals errs w' :
  validate_fields E fs raw w = (vals, errs, w') →
  (∀ f, f ∈ fs → quiet f raw) → w' = w.
Proof.
  revert w vals errs w'. induction fs as [|f fs IH]; intros w vals errs w'.
  - by intros [= _ _ <-].
  - rewrite validate_fields_cons.
    destruct (validate_field E f raw w) as [r w1] eqn:Hf.
    destruct (validate_fields E fs raw w1) as [[vals' errs'] w2] eqn:Hrest.
    intros [= _ _ <-] Hq.
    rewrite (IH _ _ _ _ Hrest) by (intros; apply Hq; set_solver).
    assert (quiet f raw) as Hqf by (apply Hq; set_solver).
    unfold validate_field, default_of in Hf.
    destruct Hqf as [[x Hx]|[Hd|[d Hd]]].
    + rewrite Hx in Hf. by injection Hf as _ <-.
    + rewrite Hd in Hf. destruct (raw !! fname f); by injection Hf as _ <-.
    + rewrite Hd in Hf. destruct (raw !! fname f); by injection Hf as _ <-.
Qed.

Lemma validate_fields_app fs1 fs2 raw w :
  validate_fields E (fs1 ++ fs2) raw w =
  let '(v1, e1, w1) := validate_fields E fs1 raw w in
  let '(v2, e2, w2) := validate_fields E fs2 raw w1 in
  (v1 ∪ v2, (e1 ++ e2)%list, w2).
Proof.
  revert w. induction fs1 as [|f fs1 IH]; intros w.
  - cbn. destruct (validate_fields E fs2 raw w) as [[v2 e2] w2].
    by rewrite (left_id_L ∅ (∪)).
  - rewrite <- app_comm_cons, !validate_fields_cons.
    destruct (validate_field E f raw w) as [r w1]. rewrite IH.
    destruct (validate_fields E fs1 raw w1) as [[v1 e1] w2].
    destruct (validate_fields E fs2 raw w2) as [[v2 e2] w3].
    rewrite <- app_assoc. by destruct r; rewrite ?insert_union_l.
Qed.

(** ** The clock *)

Lemma validate_fields_clock fs raw w vals errs w' :
  validate_fields E fs raw w = (vals, errs, w') →
  (∀ f, f ∈ fs → fdef f ≠ Factory_utcnow) →
  clock_reads w' = clock_reads w.
Proof.
  revert w vals errs w'. induction fs as [|f fs IH]; intros w vals errs w'.
  - by intros [= _ _ <-].
  - rewrite validate_fields_cons.
    destruct (validate_field E f raw w) as [r w1] eqn:Hf.
    destruct (validate_fields E fs raw w1) as [[vals' errs'] w2] eqn:Hrest.
    intros [= _ _ <-] Hq.
    rewrite (IH _ _ _ _ Hrest) by (intros; apply Hq; set_solver).
    assert (fdef f ≠ Factory_utcnow) as Hqf by (apply Hq; set_solver).
    unfold validate_field, default_of in Hf.
    destruct (raw !! fname f); [by injection Hf as _ <-|].
    destruct (fdef f); by injection Hf as _ <-.
Qed.

Lemma validate_fields_stamps raw w :
  raw !! "created_at" = None → raw !! "updated_at" = None →
  validate_fields E stamps raw w =
  (<["created_at" := VDateTime (utcnow E (clock_reads w))]>
     (<["updated_at" := VDateTime (utcnow E (S (clock_reads w)))]> ∅),
   [], World (ids_drawn w) (S (S (clock_reads w)))).
Proof.
  intros Hc Hu. unfold stamps.
  rewrite validate_fields_cons, validate_field_absent by exact Hc.
  cbn [default_of fdef fname].
  rewrite validate_fields_cons, validate_field_absent by exact Hu.
  reflexivity.
Qed.

(** A class that ends in the two stamps reads the clock twice for a payload
    that supplies neither, [created_at] first. *)
Lemma validate_stamps c pre raw w rd w' :
  fields c = (pre ++ stamps)%list →
  (∀ f, f ∈ pre → fdef f ≠ Factory_utcnow) →
  "created_at" ∉ names pre → "updated_at" ∉ names pre →
  raw !! "created_at" = None → raw !! "updated_at" = None →
  validate E c raw w = (Ok rd, w') →
  stamped E rd (clock_reads w) (S (clock_reads w)) ∧
  clock_reads w' = S (S (clock_reads w)).
Proof.
  intros Hc Hpre Hnc Hnu Hrc Hru (Hfs & _ & _)%validate_Ok.
  rewrite Hc, validate_fields_app in Hfs.
  destruct (validate_fields E pre raw w) as [[v1 e1] w1] eqn:Hv1.
  rewrite validate_fields_stamps in Hfs by done.
  unfold stamped. injection Hfs as <- _ <-.
  pose proof (validate_fields_clock _ _ _ _ _ _ Hv1 Hpre) as ->.
  assert (∀ k, k ∉ names pre → v1 !! k = None) as Hout.
  { intros k Hk. apply eq_None_not_Some. intros Hs. apply Hk.
    by eapply validate_fields_dom. }
  repeat split.
  - rewrite lookup_union_r by auto. apply lookup_insert_eq.
  - rewrite lookup_union_r by auto. by rewrite lookup_insert_ne, lookup_insert_eq.
Qed.

(** ** Validating values of the annotated types *)

Lemma validate_fields_typed fs raw w :
  (∀ f, f ∈ fs → ∃ v, raw !! fname f = Some v ∧ has_type (ftyp f) v) →
  ∃ vals, validate_fields E fs raw w = (vals, [], w) ∧
          ∀ f, f ∈ fs → vals !! fname f = raw !! fname f.
Proof.
  induction fs as [|f fs IH]; intros Hty.
  - exists ∅. split; [done|]. intros f Hf. by apply elem_of_nil in Hf.
  - destruct IH as (vals & Hfs & Hvals); [intros; apply Hty; set_solver|].
    destruct (Hty f) as (v & Hv & Hvt); [set_solver|].
    exists (<[fname f := v]> vals). split.
    + rewrite validate_fields_cons, (validate_field_present _ _ _ v) by done.
      rewrite coerce_idem by done. cbn [at_field]. by rewrite Hfs.
    + intros g [->|Hg]%elem_of_cons; [by rewrite lookup_insert_eq|].
      destruct (decide (fname f = fname g)) as [Heq|Hne].
      * by rewrite Heq, lookup_insert_eq, <- Heq.
      * rewrite lookup_insert_ne by done. by apply Hvals.
Qed.

End validation.

(** * The claims *)

(** ** Unknown keys *)

(** C10: for every class declared this way, the eight variants of Order and
    Payment among them, and every payload, keys that name no field of the
    class change nothing: with or without them validation gives the same
    result, the same instance on success and the same errors on failure. *)
Theorem unknown_keys_dropped (E : collaborators) (c : schema)
    (raw extra : gmap string value) (w : world) :
  (∀ k, k ∈ names (fields c) → extra !! k = None) →
  validate E c (raw ∪ extra) w = validate E c raw w.
Proof.
  intros Hextra. apply validate_agree. intros k Hk.
  apply lookup_union_l. by apply Hextra.
Qed.

Lemma unknown_keys_dropped_witness :
  validate Ref.ticking OrderUpdate
    ({["quantity" := VInt 5]} ∪ {["id" := VStr "not-a-uuid"; "note" := VStr "gift"]}) Ref.start
  = validate Ref.ticking OrderUpdate {["quantity" := VInt 5]} Ref.start.
Proof.
  apply unknown_keys_dropped. intros k Hk.
  cbn in Hk. repeat (apply elem_of_cons in Hk as [->|Hk]; [reflexivity|]).
  by apply elem_of_nil in Hk.
Defined.

(** ** Keys an Update does not declare *)

Lemma undeclared_key_ignored (E : collaborators) (c : schema) (k : string) (v : value)
    (raw : gmap string value) (w : world) :
  k ∉ names (fields c) →
  validate E c (<[k := v]> raw) w = validate E c raw w.
Proof.
  intros Hk. apply validate_agree. intros k' Hk'.
  apply lookup_insert_ne. by intros ->.
Qed.

(** C2, as the code has it: [OrderUpdate] and [PaymentUpdate] declare neither
    [id] nor [created_at], so either key in an Update payload is passed over
    like any other undeclared key.  The payload validates exactly as it does
    without the key, whatever value the key carries; no error is raised for
    it. *)
Theorem update_passes_over_id_and_created_at (E : collaborators)
    (raw : gmap string value) (v : value) (w : world) :
  validate_update E Order (<["id" := v]> raw) w = validate_update E Order raw w ∧
  validate_update E Order (<["created_at" := v]> raw) w = validate_update E Order raw w ∧
  validate_update E Payment (<["id" := v]> raw) w = validate_update E Payment raw w ∧
  validate_update E Payment (<["created_at" := v]> raw) w = validate_update E Payment raw w.
Proof. repeat split; apply undeclared_key_ignored; compute_done. Qed.

(** C2 fails as stated: an Update payload with [id] and [created_at] is
    accepted, and the instance holds the one declared field it supplied. *)
Lemma update_with_id_is_accepted :
  ∃ upd,
    validate_update Ref.ticking Order
      {[ "id" := VStr "550e8400-e29b-41d4-a716-446655440000";
         "created_at" := VStr "2025-01-15T10:20:30Z";
         "quantity" := VInt 5 ]} Ref.start = (Ok upd, Ref.start) ∧
    partial_record upd = {[ "quantity" := VInt 5 ]} ∧
    values upd !! "id" = None ∧ values upd !! "created_at" = None.
Proof. eexists. run_all. Qed.

(** ** Required fields *)

(** C6: a Create payload that lacks one of the required fields ([item],
    [quantity], [price_per_item], [order_date] of an Order; [amount],
    [currency], [status], [method] of a Payment) is rejected, and the errors
    include the entry [missing] located at that field. *)
Theorem create_reports_missing_field (E : collaborators) (F : family) (k : string)
    (raw : gmap string value) (w : world) :
  (F = Order ∧ k ∈ ["item"; "quantity"; "price_per_item"; "order_date"]) ∨
  (F = Payment ∧ k ∈ ["amount"; "currency"; "status"; "method"]) →
  raw !! k = None →
  ∃ e es w', validate_create E F raw w = (Err e es, w') ∧
             Error [Key k] missing ∈ e :: es.
Proof.
  intros HF Hnone.
  assert (∃ f, f ∈ fields (Create F) ∧ fname f = k ∧ fdef f = Required)
    as (f & Hin & <- & Hreq).
  { destruct HF as [[-> Hk]|[-> Hk]];
      repeat (apply elem_of_cons in Hk as [->|Hk]; [declared_field|]);
      by apply elem_of_nil in Hk. }
  by apply validate_missing.
Qed.

Lemma create_reports_missing_field_witness :
  ∃ e es w',
    validate_create Ref.ticking Order (delete "item" Ref.laptop) Ref.start = (Err e es, w') ∧
    Error [Key "item"] missing ∈ e :: es.
Proof.
  apply (create_reports_missing_field Ref.ticking Order "item").
  - left. split; [reflexivity|]. apply list_elem_of_here.
  - reflexivity.
Defined.

(** ** The identifier of a new record *)

Lemma head_id (E : collaborators) (rest : list field)
    (raw : gmap string value) (w : world) (vals : gmap string value) (w' : world) :
  (∀ f, f ∈ rest → fdef f = Required ∨ ∃ d, fdef f = Default d) →
  validate_fields E (Field "id" TUUID Factory_uuid4 :: rest) raw w = (vals, [], w') →
  (raw !! "id" = None →
     vals !! "id" = Some (VUUID (uuid4 E (ids_drawn w))) ∧
     w' = World (S (ids_drawn w)) (clock_reads w)) ∧
  (∀ v, raw !! "id" = Some v →
     ∃ u, coerce E TUUID v = Ok (VUUID u) ∧ vals !! "id" = Some (VUUID u) ∧ w' = w).
Proof.
  intros Hrest. rewrite validate_fields_cons.
  destruct (validate_field E _ raw w) as [r w1] eqn:Hid.
  destruct (validate_fields E rest raw w1) as [[vals' errs'] w2] eqn:Hfs.
  intros [= <- [Hr ->]%app_eq_nil <-].
  apply errors_nil in Hr as [v' ->].
  assert (w2 = w1) as ->.
  { eapply validate_fields_quiet; [done|]. intros f Hf. right. by apply Hrest. }
  split.
  - intros Hnone. rewrite validate_field_absent in Hid by exact Hnone.
    injection Hid as <- <-. cbn [fname]. split; [apply lookup_insert_eq|done].
  - intros v Hsome. rewrite (validate_field_present _ _ _ _ v) in Hid by exact Hsome.
    cbn [ftyp fname] in Hid.
    destruct (coerce E TUUID v) as [x|e es] eqn:Hc; cbn in Hid; [|done].
    injection Hid as -> <-.
    pose proof (coerce_has_type _ _ _ _ Hc) as Hty.
    destruct v'; try done. exists u. by rewrite lookup_insert_eq.
Qed.

Lemma create_identifier_rule (E : collaborators) (F : family)
    (raw : gmap string value) (w : world) (rec : model) (w' : world) :
  F ∈ [Order; Payment] →
  validate_create E F raw w = (Ok rec, w') →
  (raw !! "id" = None →
     values rec !! "id" = Some (VUUID (uuid4 E (ids_drawn w))) ∧
     w' = World (S (ids_drawn w)) (clock_reads w)) ∧
  (∀ v, raw !! "id" = Some v →
     ∃ u, coerce E TUUID v = Ok (VUUID u) ∧ values rec !! "id" = Some (VUUID u) ∧ w' = w).
Proof.
  intros HF (Hfs & _ & _)%validate_Ok.
  apply elem_of_cons in HF as [->|HF]; [|apply list_elem_of_singleton in HF as ->];
    (eapply head_id; [|exact Hfs]); intros f Hf; each_field Hf; eauto.
Qed.

(** C1, as the code has it: [id] is declared with [default_factory=uuid4], so
    a Create payload without [id] gets the next identifier of the generator,
    and a payload with [id] keeps the identifier it supplies: the validated
    value of the payload's [id] is the record's [id], and the generator is
    not called. *)
Theorem create_identifier (E : collaborators) (F : family)
    (raw : gmap string value) (w : world) (rec : model) (w' : world) :
  F ∈ [Order; Payment] →
  validate_create E F raw w = (Ok rec, w') →
  (raw !! "id" = None →
     values rec !! "id" = Some (VUUID (uuid4 E (ids_drawn w))) ∧
     w' = World (S (ids_drawn w)) (clock_reads w)) ∧
  (∀ v, raw !! "id" = Some v →
     ∃ u, coerce E TUUID v = Ok (VUUID u) ∧ values rec !! "id" = Some (VUUID u) ∧ w' = w) ∧
  (∀ u, raw !! "id" = Some (VUUID u) → values rec !! "id" = Some (VUUID u)).
Proof.
  intros HF Hv.
  destruct (create_identifier_rule E F raw w rec w' HF Hv) as [Habsent Hgiven].
  repeat split; [by apply Habsent..|by apply Hgiven|].
  intros u Hu. destruct (Hgiven _ Hu) as (u' & [= <-] & Hid & _). done.
Qed.

Lemma create_identifier_witness :
  ∃ rec,
    validate_create Ref.ticking Order Ref.laptop Ref.start = (Ok rec, World 1 0) ∧
    values rec !! "id" = Some (VUUID (Ref.ids 0%nat)).
Proof.
  destruct (validate_create Ref.ticking Order Ref.laptop Ref.start) as [[rec|] w'] eqn:Hv;
    [|by vm_compute in Hv].
  destruct (create_identifier Ref.ticking Order Ref.laptop Ref.start rec w') as (Habsent & _).
  - apply list_elem_of_here.
  - exact Hv.
  - destruct (Habsent eq_refl) as [Hid ->]. by exists rec.
Defined.

(** C1 fails as stated: the identifier the payload supplies is the record's
    identifier, not the one the generator would have given. *)
Lemma create_keeps_supplied_id :
  ∃ rec,
    validate_create Ref.ticking Order Ref.laptop_with_id Ref.start = (Ok rec, Ref.start) ∧
    values rec !! "id" = Some (VUUID Ref.client_id) ∧
    Ref.client_id ≠ uuid4 Ref.ticking (ids_drawn Ref.start).
Proof. eexists. run_all. Qed.

(** ** Person fields left out of a Create payload *)

(** C9: [customer] of an Order, [sender] and [receiver] of a Payment are
    annotated [PersonBase], not [Optional], and declared with [Field(None)].
    A Create payload that leaves such a field out, and whose other fields are
    accepted, validates, and the record holds [None] for it. *)
Theorem omitted_person_is_none (E : collaborators) (F : family) (k : string)
    (raw : gmap string value) (w : world) :
  (F = Order ∧ k = "customer") ∨ (F = Payment ∧ (k = "sender" ∨ k = "receiver")) →
  raw !! k = None →
  (∀ f, f ∈ fields (Create F) → fname f ≠ k → accepted E f raw) →
  (∃ f, f ∈ fields (Create F) ∧ fname f = k ∧ ftyp f = TPersonBase) ∧
  ∃ rec w', validate_create E F raw w = (Ok rec, w') ∧ values rec !! k = Some VNone.
Proof.
  intros HF Hnone Hacc.
  assert (∃ f, f ∈ fields (Create F) ∧ fname f = k ∧
               ftyp f = TPersonBase ∧ fdef f = Default VNone) as (f & Hin & Hk & Hty & Hdef).
  { destruct HF as [[-> ->] | [-> [-> | ->]]];
      (eexists (Field _ TPersonBase (Default VNone)); split; [in_fields|done]). }
  split; [by eauto|].
  assert (NoDup (names (fields (Create F)))) as Hnd.
  { destruct HF as [[-> _]|[-> _]]; compute_done. }
  destruct (validate_accepted E (Create F) raw w) as (rec & w' & Hv).
  { intros g Hg. destruct (decide (fname g = k)) as [Hgk|Hgk]; [|by apply Hacc].
    unfold accepted. rewrite Hgk, Hnone.
    destruct HF as [[-> ->] | [-> [-> | ->]]]; each_field Hg; done. }
  exists rec, w'. split; [done|].
  apply validate_Ok in Hv as (Hfs & _ & _). rewrite <- Hk.
  eapply validate_fields_default; [exact Hfs|done|done|by rewrite Hk|done].
Qed.

Lemma omitted_person_is_none_witness :
  ∃ rec w',
    validate_create Ref.ticking Order (delete "customer" Ref.laptop) Ref.start = (Ok rec, w') ∧
    values rec !! "customer" = Some VNone.
Proof.
  apply (omitted_person_is_none Ref.ticking Order "customer").
  - left. by split.
  - reflexivity.
  - intros f Hf Hne. each_field Hf; done.
Defined.

(** ** The item of an Order *)

(** C7, as the code has it: [item] is annotated [str] and required, with no
    constraint on its length.  A Create payload without [item] is rejected
    with [missing] at [item]; one whose [item] is a string, the empty string
    included, and whose other fields are accepted, validates and keeps that
    string. *)
Theorem order_item_is_any_string (E : collaborators) (raw : gmap string value) (w : world) :
  (raw !! "item" = None →
     ∃ e es w', validate_create E Order raw w = (Err e es, w') ∧
                Error [Key "item"] missing ∈ e :: es) ∧
  (∀ s, raw !! "item" = Some (VStr s) →
     (∀ f, f ∈ fields (Create Order) → fname f ≠ "item" → accepted E f raw) →
     ∃ rec w', validate_create E Order raw w = (Ok rec, w') ∧
               values rec !! "item" = Some (VStr s)).
Proof.
  assert (Field "item" TStr Required ∈ fields (Create Order)) as Hin by in_fields.
  assert (NoDup (names (fields (Create Order)))) as Hnd by compute_done.
  repeat split.
  - intros Hnone. by apply (validate_missing E _ _ _ (Field "item" TStr Required)).
  - intros s Hsome Hacc.
    destruct (validate_accepted E (Create Order) raw w) as (rec & w' & Hv).
    { intros g Hg. destruct (decide (fname g = "item")) as [Hgk|Hgk]; [|by apply Hacc].
      unfold accepted. rewrite Hgk, Hsome. each_field Hg; done. }
    exists rec, w'. split; [done|].
    apply validate_Ok in Hv as (Hfs & _ & _).
    exact (validate_fields_present E _ _ _ _ _ _ _ _ Hfs Hnd Hin Hsome).
Qed.

Lemma order_item_is_any_string_witness :
  ∃ rec w',
    validate_create Ref.ticking Order Ref.laptop Ref.start = (Ok rec, w') ∧
    values rec !! "item" = Some (VStr "Laptop").
Proof.
  destruct (order_item_is_any_string Ref.ticking Ref.laptop Ref.start) as (_ & Hstr).
  apply Hstr; [reflexivity|].
  intros f Hf Hne. each_field Hf; done.
Defined.

(** C7 fails as stated: the example payload with the empty string for [item]
    validates, and the record's [item] is the empty string. *)
Lemma create_accepts_empty_item :
  ∃ rec,
    validate_create Ref.ticking Order (<["item" := VStr ""]> Ref.laptop) Ref.start
      = (Ok rec, World 1 0) ∧
    values rec !! "item" = Some (VStr "").
Proof. eexists. run_all. Qed.

(** ** Absent and null in an Update *)

Lemma validate_fields_null (E : collaborators) (fs : list field) (k : string)
    (raw : gmap string value) (w : world) :
  (∀ f, f ∈ fs → fname f = k → (∃ t, ftyp f = TOptional t) ∧ fdef f = Default VNone) →
  raw !! k = None →
  validate_fields E fs (<[k := VNone]> raw) w = validate_fields E fs raw w.
Proof.
  intros Hopt Hnone. revert w. induction fs as [|f fs IH]; intros w; [done|].
  rewrite !validate_fields_cons.
  assert (validate_field E f (<[k := VNone]> raw) w = validate_field E f raw w) as ->.
  { destruct (decide (fname f = k)) as [Hk|Hk].
    - destruct (Hopt f) as [[t Ht] Hd]; [apply list_elem_of_here|done|].
      rewrite (validate_field_present _ _ _ _ VNone) by (by rewrite Hk, lookup_insert_eq).
      rewrite validate_field_absent by (by rewrite Hk).
      unfold default_of. by rewrite Ht, Hd.
    - apply validate_field_agree. by rewrite lookup_insert_ne. }
  destruct (validate_field E f raw w) as [r w1].
  rewrite IH; [done|]. intros g Hg. apply Hopt. by apply list_elem_of_further.
Qed.

(** Every field of an Update class is [Optional] with the default [None];
    the stamps are not among them. *)
Lemma update_shape (F : family) :
  F ∈ [Order; Payment] →
  NoDup (names (fields (Update F))) ∧
  ("created_at" ∉ names (fields (Update F))) ∧
  ("updated_at" ∉ names (fields (Update F))) ∧
  (∀ f, f ∈ fields (Update F) → (∃ t, ftyp f = TOptional t) ∧ fdef f = Default VNone).
Proof.
  intros HF.
  apply elem_of_cons in HF as [->|HF]; [|apply list_elem_of_singleton in HF as ->];
    (split; [compute_done|]); (split; [compute_done|]); (split; [compute_done|]);
    intros f Hf; each_field Hf; eauto.
Qed.

(** C3: an instance of an Update class records which fields the payload
    supplied ([model_fields_set]).  A payload that leaves a field out and the
    same payload with an explicit [None] for it both validate, to different
    instances: the field values agree ([None] is also the default), but only
    the second instance counts the field as supplied, and only its partial
    record ([model_dump(exclude_unset=True)]) has an entry for the field, with
    the value [None]. *)
Theorem update_null_is_not_absent (E : collaborators) (F : family) (k : string)
    (raw : gmap string value) (w : world) (upd : model) (w' : world) :
  F ∈ [Order; Payment] →
  k ∈ names (fields (Update F)) →
  raw !! k = None →
  validate_update E F raw w = (Ok upd, w') →
  ∃ upd0,
    validate_update E F (<[k := VNone]> raw) w = (Ok upd0, w') ∧
    upd0 ≠ upd ∧
    values upd0 = values upd ∧
    (k ∉ fields_set upd) ∧ k ∈ fields_set upd0 ∧
    partial_record upd !! k = None ∧
    partial_record upd0 !! k = Some VNone.
Proof.
  intros HF Hk Hnone Hv.
  destruct (update_shape F HF) as (Hnd & _ & _ & Hopt).
  apply list_elem_of_fmap in Hk as (f & -> & Hf).
  destruct (Hopt f Hf) as [_ Hdef].
  pose proof Hv as (Hfs & Hcls & Hset)%validate_Ok.
  assert (fname f ∉ fields_set upd) as Hout.
  { rewrite Hset, elem_of_intersection, elem_of_dom, Hnone. by intros [[? ?] _]. }
  assert (values upd !! fname f = Some VNone) as Hval.
  { by eapply validate_fields_default. }
  eexists (Model (cname (Update F)) (values upd)
             (dom (<[fname f := VNone]> raw) ∩ list_to_set (names (fields (Update F))))).
  assert (fname f ∈ dom (<[fname f := VNone]> raw) ∩
            (list_to_set (names (fields (Update F))) : gset string)) as Hin.
  { rewrite elem_of_intersection, elem_of_dom, lookup_insert_eq, elem_of_list_to_set.
    split; [by eexists|by apply list_elem_of_fmap_2]. }
  repeat split; try done.
  - unfold validate_update, validate.
    rewrite validate_fields_null by (done || (by intros; apply Hopt)).
    by rewrite Hfs.
  - intros Heq. apply Hout. by rewrite <- Heq.
  - apply map_lookup_filter_None. right. by intros x _ ?.
  - by apply map_lookup_filter_Some.
Qed.

Lemma update_null_is_not_absent_witness :
  ∃ upd0,
    validate_update Ref.ticking Order {[ "item" := VNone; "quantity" := VInt 5 ]} Ref.start
      = (Ok upd0, Ref.start) ∧
    partial_record upd0 !! "item" = Some VNone.
Proof.
  destruct (validate_update Ref.ticking Order {[ "quantity" := VInt 5 ]} Ref.start)
    as [[upd|] w'] eqn:Hv; [|by vm_compute in Hv].
  assert (w' = Ref.start) as -> by (by vm_compute in Hv; injection Hv as _ <-).
  destruct (update_null_is_not_absent Ref.ticking Order "item"
              {[ "quantity" := VInt 5 ]} Ref.start upd Ref.start)
    as (upd0 & Hv0 & _ & _ & _ & _ & _ & Hpart).
  - apply list_elem_of_here.
  - compute_done.
  - reflexivity.
  - exact Hv.
  - exists upd0. split; [|exact Hpart]. exact Hv0.
Defined.

(** ** From a Create payload to a Read *)

(** How the classes of a family are built on its Base. *)
Lemma family_shape (F : family) :
  F ∈ [Order; Payment] →
  fields (Create F) = fields (Base F) ∧
  fields (Read F) = (fields (Base F) ++ stamps)%list ∧
  NoDup (names (fields (Base F))) ∧
  ("created_at" ∉ names (fields (Base F))) ∧
  ("updated_at" ∉ names (fields (Base F))) ∧
  (∀ f, f ∈ fields (Base F) → fdef f ≠ Factory_utcnow) ∧
  (∀ f, f ∈ fields (Base F) → default_typed f ∨ ftyp f = TPersonBase).
Proof.
  intros HF.
  apply elem_of_cons in HF as [->|HF]; [|apply list_elem_of_singleton in HF as ->];
    (split; [reflexivity|]); (split; [reflexivity|]); (split; [compute_done|]);
    (split; [compute_done|]); (split; [compute_done|]);
    (split; intros f Hf; each_field Hf;
     first [done | left; vm_compute; exact I | right; reflexivity]).
Qed.

(** The fields of a validated Create record are instances of their
    annotations, given that the Person fields were supplied. *)
Lemma create_record_typed (E : collaborators) (F : family)
    (raw : gmap string value) (w : world) (rec : model) (w1 : world) (f : field) :
  F ∈ [Order; Payment] →
  validate_create E F raw w = (Ok rec, w1) →
  (∀ g, g ∈ fields (Base F) → ftyp g = TPersonBase → is_Some (raw !! fname g)) →
  f ∈ fields (Base F) →
  ∃ v, values rec !! fname f = Some v ∧ has_type (ftyp f) v ∧ field_value E f raw v.
Proof.
  intros HF (Hfs & _ & _)%validate_Ok Hpersons Hf.
  destruct (family_shape F HF) as (Hcreate & _ & Hnd & _ & _ & _ & Htyped).
  rewrite Hcreate in Hfs.
  destruct (validate_fields_value E _ _ _ _ _ _ Hfs Hnd Hf) as (v & Hv & Hfv).
  exists v. repeat split; [done| |done].
  unfold field_value in Hfv.
  destruct (raw !! fname f) as [x|] eqn:Hraw; [by eapply coerce_has_type|].
  destruct (Htyped f Hf) as [Hd|Hp].
  - unfold default_typed in Hd. destruct (fdef f).
    + done.
    + by subst.
    + destruct Hfv as [n ->]. apply bool_decide_unpack in Hd. by rewrite Hd.
    + destruct Hfv as [n ->]. apply bool_decide_unpack in Hd. by rewrite Hd.
  - destruct (Hpersons f Hf Hp) as [x Hx]. congruence.
Qed.

(** C4, as the code has it: for a valid Create payload that supplies the
    Person fields, the Read built from the validated record holds, in every
    Base field, the record's value: the validated value of the payload's
    field, which is the payload's value itself when that is an instance of the
    annotation.  This includes [id]: the Read has the identifier the payload
    supplied, and a generated one only when the payload has none.
    [created_at] and [updated_at] are two successive readings of the clock,
    [created_at] first. *)
Theorem create_then_read (E : collaborators) (F : family)
    (raw : gmap string value) (w : world) (rec : model) (w1 : world) :
  F ∈ [Order; Payment] →
  validate_create E F raw w = (Ok rec, w1) →
  (∀ f, f ∈ fields (Base F) → ftyp f = TPersonBase → is_Some (raw !! fname f)) →
  ∃ rd,
    project_read E F rec w1 = (Ok rd, World (ids_drawn w1) (S (S (clock_reads w1)))) ∧
    (∀ k, k ∈ names (fields (Base F)) → values rd !! k = values rec !! k) ∧
    (∀ f v, f ∈ fields (Base F) → raw !! fname f = Some v →
       ∃ v', coerce E (ftyp f) v = Ok v' ∧ values rd !! fname f = Some v') ∧
    (∀ f v, f ∈ fields (Base F) → raw !! fname f = Some v → has_type (ftyp f) v →
       values rd !! fname f = Some v) ∧
    (raw !! "id" = None → values rd !! "id" = Some (VUUID (uuid4 E (ids_drawn w)))) ∧
    values rd !! "created_at" = Some (VDateTime (utcnow E (clock_reads w1))) ∧
    values rd !! "updated_at" = Some (VDateTime (utcnow E (S (clock_reads w1)))).
Proof.
  intros HF Hv Hpersons.
  destruct (family_shape F HF) as (Hcreate & Hread & Hnd & Hnc & Hnu & Hclock & _).
  pose proof Hv as (Hfs & _ & _)%validate_Ok.
  assert (∀ k, k ∉ names (fields (Base F)) → values rec !! k = None) as Hout.
  { intros k Hk. apply eq_None_not_Some. intros Hs. apply Hk.
    rewrite <- Hcreate. by eapply validate_fields_dom. }
  destruct (validate_fields_typed E (fields (Base F)) (values rec) w1) as (v1 & Hv1 & Hsame).
  { intros f Hf. destruct (create_record_typed E F raw w rec w1 f) as (v & ? & ? & _); eauto. }
  set (rd := Model (cname (Read F))
               (v1 ∪ <["created_at" := VDateTime (utcnow E (clock_reads w1))]>
                       (<["updated_at" := VDateTime (utcnow E (S (clock_reads w1)))]> ∅))
               (dom (values rec) ∩ list_to_set (names (fields (Read F))))).
  assert (project_read E F rec w1 = (Ok rd, World (ids_drawn w1) (S (S (clock_reads w1)))))
    as Hrd.
  { unfold project_read, validate.
    rewrite Hread, validate_fields_app, Hv1, validate_fields_stamps by auto.
    by rewrite <- Hread. }
  assert (∀ f, f ∈ fields (Base F) → values rd !! fname f = values rec !! fname f) as Hbase.
  { intros f Hf. cbn [values rd].
    destruct (create_record_typed E F raw w rec w1 f) as (v & Hrec & _); [done..|].
    rewrite Hrec. apply lookup_union_Some_l. by rewrite Hsame. }
  exists rd. split; [done|]. repeat split.
  - intros k (f & -> & Hf)%list_elem_of_fmap. by apply Hbase.
  - intros f v Hf Hraw. rewrite Hbase by done.
    destruct (create_record_typed E F raw w rec w1 f) as (v' & Hrec & _ & Hfv); [done..|].
    unfold field_value in Hfv. rewrite Hraw in Hfv. eauto.
  - intros f v Hf Hraw Hty. rewrite Hbase by done.
    destruct (create_record_typed E F raw w rec w1 f) as (v' & Hrec & _ & Hfv); [done..|].
    unfold field_value in Hfv. rewrite Hraw, coerce_idem in Hfv by done.
    by injection Hfv as <-.
  - intros Hnone.
    assert (Field "id" TUUID Factory_uuid4 ∈ fields (Base F)) as Hid.
    { apply elem_of_cons in HF as [->|HF]; [|apply list_elem_of_singleton in HF as ->];
        in_fields. }
    pose proof (Hbase _ Hid) as Hidv. cbn [fname] in Hidv. rewrite Hidv.
    by destruct (create_identifier_rule E F raw w rec w1 HF Hv) as [[? _] _].
  - eapply validate_stamps in Hrd as [[Hc _] _]; eauto.
  - eapply validate_stamps in Hrd as [[_ Hu] _]; eauto.
Qed.

Lemma create_then_read_witness :
  ∃ rec w1 rd,
    validate_create Ref.ticking Order Ref.laptop Ref.start = (Ok rec, w1) ∧
    project_read Ref.ticking Order rec w1
      = (Ok rd, World (ids_drawn w1) (S (S (clock_reads w1)))) ∧
    values rd !! "item" = Some (VStr "Laptop").
Proof.
  destruct (validate_create Ref.ticking Order Ref.laptop Ref.start) as [[rec|] w1] eqn:Hv;
    [|by vm_compute in Hv].
  destruct (create_then_read Ref.ticking Order Ref.laptop Ref.start rec w1)
    as (rd & Hrd & _ & _ & Hsame & _).
  - apply list_elem_of_here.
  - exact Hv.
  - intros f Hf Hty. each_field Hf; done.
  - exists rec, w1, rd. repeat split; [exact Hrd|].
    apply (Hsame (Field "item" TStr Required)); [in_fields|reflexivity|exact I].
Defined.

(** C4 fails as stated, twice: the Read has the identifier the payload
    supplied, not the one the generator would give, and with a clock that
    advances between two readings [updated_at] is later than [created_at]. *)
Lemma read_keeps_supplied_id_and_stamps_differ :
  ∃ rec w1 rd w2,
    validate_create Ref.ticking Order Ref.laptop_with_id Ref.start = (Ok rec, w1) ∧
    project_read Ref.ticking Order rec w1 = (Ok rd, w2) ∧
    values rd !! "id" = Some (VUUID Ref.client_id) ∧
    Ref.client_id ≠ uuid4 Ref.ticking (ids_drawn Ref.start) ∧
    values rd !! "created_at" = Some (VDateTime Ref.t0) ∧
    values rd !! "updated_at" = Some (VDateTime (Ref.t0 + 1)).
Proof.
  do 4 eexists. run_all.
Qed.

(** A record whose Person field was left out holds [None] there, which the
    Read class, annotated [PersonBase], does not take. *)
Lemma read_rejects_none_customer :
  ∃ rec w1 w2,
    validate_create Ref.ticking Order (delete "customer" Ref.laptop) Ref.start = (Ok rec, w1) ∧
    project_read Ref.ticking Order rec w1
      = (Err (Error [Key "customer"] (invalid TPersonBase)) [], w2).
Proof. do 3 eexists. run_all. Qed.

(** ** Merging an Update *)

Lemma monotone_le (clock : nat → Z) (i j : nat) :
  (∀ n, clock n ≤ clock (S n)) → (i ≤ j)%nat → clock i ≤ clock j.
Proof.
  intros Hmono Hij. induction Hij as [|j Hij IH]; [lia|].
  specialize (Hmono j). lia.
Qed.

(** A validated Update has values for declared fields only, and calls no
    factory. *)
Lemma update_quiet (E : collaborators) (F : family)
    (raw : gmap string value) (w0 : world) (upd : model) (w1 : world) :
  F ∈ [Order; Payment] →
  validate_update E F raw w0 = (Ok upd, w1) →
  w1 = w0 ∧ ∀ k, k ∉ names (fields (Update F)) → partial_record upd !! k = None.
Proof.
  intros HF (Hfs & _ & _)%validate_Ok.
  destruct (update_shape F HF) as (_ & _ & _ & Hopt). split.
  - eapply validate_fields_quiet; [exact Hfs|].
    intros f Hf. right. right. destruct (Hopt f Hf) as [_ ->]. eauto.
  - intros k Hk. apply map_lookup_filter_None. left.
    apply eq_None_not_Some. intros Hs. apply Hk. by eapply validate_fields_dom.
Qed.

(** The stamps of a record the layer produced are readings of the clock,
    taken in order, before the world the record was left in. *)
Lemma produced_stamped (E : collaborators) (F : family) (rd : model) (w : world) :
  F ∈ [Order; Payment] →
  produced E F rd w →
  ∃ i j, (i ≤ j < clock_reads w)%nat ∧ stamped E rd i j.
Proof.
  intros HF Hp.
  induction Hp as [raw w rec w1 rd w2 Hcreate Hread
                  |stored w raw w0 upd w1 rd w2 Hp IH Hlater Hupd Hmerge].
  - destruct (family_shape F HF) as (Hc & Hr & _ & Hnc & Hnu & Hclock & _).
    apply validate_Ok in Hcreate as (Hfs & _ & _). rewrite Hc in Hfs.
    assert (∀ k, k ∉ names (fields (Base F)) → values rec !! k = None) as Hout.
    { intros k Hk. apply eq_None_not_Some. intros Hs. apply Hk.
      by eapply validate_fields_dom. }
    destruct (validate_stamps E (Read F) _ _ _ _ _ Hr Hclock Hnc Hnu
                (Hout _ Hnc) (Hout _ Hnu) Hread) as [Hst ->].
    exists (clock_reads w1), (S (clock_reads w1)). split; [lia|done].
  - destruct IH as (i & j & Hij & Hc & Hu).
    destruct (update_quiet E F raw w0 upd w1 HF Hupd) as [-> Hpart].
    destruct (update_shape F HF) as (_ & Hnc & _ & _).
    injection Hmerge as <- <-.
    exists i, (clock_reads w0). split; [cbn; lia|]. split; cbn [values].
    + rewrite lookup_insert_ne by done. rewrite lookup_union_r by auto. done.
    + apply lookup_insert_eq.
Qed.

(** C8, as the code has it: the stamps are readings of [datetime.utcnow], so
    their order is the clock's.  With a clock whose readings do not decrease,
    every record the layer produces, by a Create or by any sequence of merges
    after it, has [created_at] and [updated_at] set, with [updated_at] not
    before [created_at]. *)
Theorem updated_at_not_before_created_at (E : collaborators) (F : family)
    (rd : model) (w : world) :
  F ∈ [Order; Payment] →
  (∀ n, utcnow E n ≤ utcnow E (S n)) →
  produced E F rd w →
  ∃ c u, values rd !! "created_at" = Some (VDateTime c) ∧
         values rd !! "updated_at" = Some (VDateTime u) ∧
         c ≤ u.
Proof.
  intros HF Hmono Hp.
  destruct (produced_stamped E F rd w HF Hp) as (i & j & Hij & Hc & Hu).
  exists (utcnow E i), (utcnow E j). repeat split; [done..|].
  apply monotone_le; [done|lia].
Qed.

Lemma updated_at_not_before_created_at_witness :
  ∃ rd w,
    produced Ref.ticking Order rd w ∧
    values rd !! "quantity" = Some (VInt 5) ∧
    ∃ c u, values rd !! "created_at" = Some (VDateTime c) ∧
           values rd !! "updated_at" = Some (VDateTime u) ∧
           c ≤ u.
Proof.
  assert (∃ rd w, produced Ref.ticking Order rd w ∧
                  values rd !! "quantity" = Some (VInt 5)) as (rd & w & Hp & Hq).
  { eexists _, _. split.
    - eapply (produced_merge _ _ _ _ {[ "quantity" := VInt 5 ]} (World 1 2)).
      + eapply (produced_create _ _ Ref.laptop Ref.start).
        * run.
        * run.
      + vm_compute. lia.
      + run.
      + run.
    - run. }
  exists rd, w. split; [exact Hp|]. split; [exact Hq|].
  apply (updated_at_not_before_created_at Ref.ticking Order rd w).
  - apply list_elem_of_here.
  - intros n. cbn. lia.
  - exact Hp.
Defined.

(** C8 fails as stated: with a clock that is set back between the two
    readings of a creation, the record produced has [updated_at] before
    [created_at]. *)
Lemma created_under_clock_set_back :
  ∃ rd w,
    produced Ref.set_back Order rd w ∧
    values rd !! "created_at" = Some (VDateTime Ref.t0) ∧
    values rd !! "updated_at" = Some (VDateTime (Ref.t0 - 1)) ∧
    Ref.t0 - 1 < Ref.t0.
Proof.
  eexists _, _. split; [|split; [|split]].
  - eapply (produced_create _ _ Ref.laptop Ref.start).
    + run.
    + run.
  - run.
  - run.
  - reflexivity.
Qed.

(** C5, as the merge of section 4.3 has it: every field the payload supplies
    holds its validated value, every other field (apart from [updated_at])
    holds the stored value, and [updated_at] is the reading of the clock at
    the merge.  For a record the layer produced, under a clock whose readings
    do not decrease, that reading is not before the prior [updated_at]; it is
    later only if the clock has advanced. *)
Theorem merge_changes_supplied_fields_only (E : collaborators) (F : family)
    (raw : gmap string value) (w0 : world) (upd : model) (w1 : world) (stored : model) :
  F ∈ [Order; Payment] →
  validate_update E F raw w0 = (Ok upd, w1) →
  ∃ m,
    merge E stored upd w1 = (m, World (ids_drawn w0) (S (clock_reads w0))) ∧
    (∀ f v, f ∈ fields (Update F) → raw !! fname f = Some v →
       ∃ v', coerce E (ftyp f) v = Ok v' ∧ values m !! fname f = Some v') ∧
    (∀ k, k ≠ "updated_at" → raw !! k = None ∨ k ∉ names (fields (Update F)) →
       values m !! k = values stored !! k) ∧
    values m !! "updated_at" = Some (VDateTime (utcnow E (clock_reads w0))) ∧
    (∀ w, produced E F stored w → (clock_reads w ≤ clock_reads w0)%nat →
       (∀ n, utcnow E n ≤ utcnow E (S n)) →
       ∃ p, values stored !! "updated_at" = Some (VDateTime p) ∧
            p ≤ utcnow E (clock_reads w0)).
Proof.
  intros HF Hv.
  destruct (update_quiet E F raw w0 upd w1 HF Hv) as [-> Hundeclared].
  destruct (update_shape F HF) as (Hnd & _ & Hnu & _).
  pose proof Hv as (Hfs & _ & Hset)%validate_Ok.
  eexists. split; [reflexivity|]. cbn [values]. repeat split.
  - intros f v Hf Hraw.
    pose proof (validate_fields_present E _ _ _ _ _ _ _ v Hfs Hnd Hf Hraw) as Hp.
    destruct (coerce E (ftyp f) v) as [v'|e es]; [|by apply elem_of_nil in Hp].
    exists v'. split; [done|].
    rewrite lookup_insert_ne by (intros Heq; apply Hnu; rewrite Heq; by apply list_elem_of_fmap_2).
    apply lookup_union_Some_l, map_lookup_filter_Some. split; [done|].
    cbn. rewrite Hset, elem_of_intersection, elem_of_dom, Hraw, elem_of_list_to_set.
    split; [by eexists|by apply list_elem_of_fmap_2].
  - intros k Hk Hnot. rewrite lookup_insert_ne by done.
    apply lookup_union_r. destruct Hnot as [Hnone|Hout]; [|by apply Hundeclared].
    apply map_lookup_filter_None. right. intros x _. cbn.
    rewrite Hset, elem_of_intersection, elem_of_dom, Hnone. by intros [[? ?] _].
  - apply lookup_insert_eq.
  - intros w Hp Hlater Hmono.
    destruct (produced_stamped E F stored w HF Hp) as (i & j & Hij & _ & Hu).
    exists (utcnow E j). split; [done|]. apply monotone_le; [done|lia].
Qed.

Lemma merge_changes_supplied_fields_only_witness :
  ∃ upd m,
    validate_update Ref.ticking Order {[ "quantity" := VInt 5 ]} (World 1 2)
      = (Ok upd, World 1 2) ∧
    merge Ref.ticking (Model "OrderRead" {[ "item" := VStr "Laptop"; "quantity" := VInt 2 ]} ∅)
      upd (World 1 2) = (m, World 1 3) ∧
    values m !! "quantity" = Some (VInt 5) ∧
    values m !! "item" = Some (VStr "Laptop").
Proof.
  destruct (validate_update Ref.ticking Order {[ "quantity" := VInt 5 ]} (World 1 2))
    as [[upd|] w1] eqn:Hv; [|by vm_compute in Hv].
  assert (w1 = World 1 2) as -> by (by vm_compute in Hv; injection Hv as _ <-).
  destruct (merge_changes_supplied_fields_only Ref.ticking Order
              {[ "quantity" := VInt 5 ]} (World 1 2) upd (World 1 2)
              (Model "OrderRead" {[ "item" := VStr "Laptop"; "quantity" := VInt 2 ]} ∅))
    as (m & Hm & Hgiven & Hkept & _).
  - apply list_elem_of_here.
  - exact Hv.
  - exists upd, m. split; [reflexivity|]. split; [exact Hm|]. split.
    + destruct (Hgiven (Field "quantity" (TOptional TInt) (Default VNone)) (VInt 5))
        as (v' & [= <-] & Hq); [in_fields|reflexivity|exact Hq].
    + rewrite (Hkept "item"); [reflexivity|done|by left].
Defined.

(** C5 fails as stated: with a clock read twice within its resolution, the
    merge of an Update onto a record created just before leaves [updated_at]
    equal to the prior [updated_at], not greater. *)
Lemma merge_within_clock_resolution :
  ∃ rec w1 stored w2 upd w3 m w4,
    validate_create Ref.coarse Order Ref.laptop Ref.start = (Ok rec, w1) ∧
    project_read Ref.coarse Order rec w1 = (Ok stored, w2) ∧
    validate_update Ref.coarse Order {[ "quantity" := VInt 5 ]} w2 = (Ok upd, w3) ∧
    merge Ref.coarse stored upd w3 = (m, w4) ∧
    values m !! "quantity" = Some (VInt 5) ∧
    values stored !! "updated_at" = Some (VDateTime Ref.t0) ∧
    values m !! "updated_at" = Some (VDateTime Ref.t0).
Proof. do 8 eexists. run_all. Qed.

(** * Further properties of the classes *)

(** Case analysis on a class of one of the two families. *)
Ltac each_class HF Hc :=
  apply elem_of_cons in HF as [->|HF]; [|apply list_elem_of_singleton in HF as ->];
  unfold classes in Hc;
  repeat (apply elem_of_cons in Hc as [->|Hc]);
  [.. | by apply elem_of_nil in Hc | | | | | by apply elem_of_nil in Hc].

Section fields.
Context (E : collaborators).
Implicit Types (f g : field) (fs : list field) (c : schema).
Implicit Types (raw : gmap string value) (w : world) (k : string).

Lemma validate_fields_Ok_accepted fs raw w vals w' f :
  validate_fields E fs raw w = (vals, [], w') → f ∈ fs → accepted E f raw.
Proof.
  revert w vals w'. induction fs as [|g fs IH]; intros w vals w'.
  - intros _ Hin. by apply elem_of_nil in Hin.
  - rewrite validate_fields_cons.
    destruct (validate_field E g raw w) as [r w1] eqn:Hg.
    destruct (validate_fields E fs raw w1) as [[vals' errs'] w2] eqn:Hrest.
    intros [= _ [Hr ->]%app_eq_nil _] [->|Hin]%elem_of_cons; [|by eapply IH].
    apply errors_nil in Hr as [v ->].
    unfold accepted. unfold validate_field, default_of in Hg.
    destruct (raw !! fname g) as [x|].
    + injection Hg as Hg _. by destruct (coerce E (ftyp g) x).
    + by destruct (fdef g).
Qed.

Lemma validate_fields_errors fs raw w vals errs w' x :
  validate_fields E fs raw w = (vals, errs, w') → x ∈ errs →
  ∃ f, f ∈ fs ∧ error_of E f raw x.
Proof.
  revert w vals errs w'. induction fs as [|g fs IH]; intros w vals errs w'.
  - intros [= _ <- _] Hx. by apply elem_of_nil in Hx.
  - rewrite validate_fields_cons.
    destruct (validate_field E g raw w) as [r w1] eqn:Hg.
    destruct (validate_fields E fs raw w1) as [[vals' errs'] w2] eqn:Hrest.
    intros [= _ <- _] [Hx|Hx]%elem_of_app.
    + exists g. split; [apply list_elem_of_here|].
      unfold validate_field, default_of in Hg.
      destruct (raw !! fname g) as [v|] eqn:Hraw.
      * right. injection Hg as <- _. rewrite errors_at_field in Hx.
        apply list_elem_of_fmap in Hx as (y & -> & Hy). by exists v, y.
      * left. destruct (fdef g); injection Hg as <- _;
          try (by apply elem_of_nil in Hx).
        apply list_elem_of_singleton in Hx. by subst.
    + destruct (IH _ _ _ _ Hrest Hx) as (f & Hf & Herr).
      exists f. split; [by apply list_elem_of_further|done].
Qed.

Lemma validate_fields_total fs raw w vals w' f :
  validate_fields E fs raw w = (vals, [], w') → f ∈ fs → is_Some (vals !! fname f).
Proof.
  revert w vals w'. induction fs as [|g fs IH]; intros w vals w'.
  - intros _ Hin. by apply elem_of_nil in Hin.
  - rewrite validate_fields_cons.
    destruct (validate_field E g raw w) as [r w1] eqn:Hg.
    destruct (validate_fields E fs raw w1) as [[vals' errs'] w2] eqn:Hrest.
    intros [= <- [Hr ->]%app_eq_nil _] Hin.
    apply errors_nil in Hr as [v ->].
    destruct (decide (fname g = fname f)) as [->|Hne]; [by rewrite lookup_insert_eq|].
    rewrite lookup_insert_ne by done.
    apply elem_of_cons in Hin as [->|Hin]; [done|by eapply IH].
Qed.

End fields.

(** ** When validation succeeds, and what its errors are *)

(** X1: a payload validates against a class exactly when every declared field
    accepts what the payload gives it: a value its annotation takes, or
    nothing where a default stands in.  No field's verdict depends on another
    field, on the identifier generator or on the clock. *)
Theorem validates_iff_every_field_accepted (E : collaborators) (c : schema)
    (raw : gmap string value) (w : world) :
  (∃ rec w', validate E c raw w = (Ok rec, w')) ↔
  (∀ f, f ∈ fields c → accepted E f raw).
Proof.
  split.
  - intros (rec & w' & (Hfs & _)%validate_Ok) f Hf.
    by eapply validate_fields_Ok_accepted.
  - apply validate_accepted.
Qed.

(** X2: every entry of a validation error is located under a declared field
    and has one of two causes: the field is required and absent (the entry
    is [missing] at the field), or the payload supplies a value that the
    field's annotation rejects (the entry is the annotation's, under the
    field's name). *)
Theorem every_error_has_its_field (E : collaborators) (c : schema)
    (raw : gmap string value) (w : world) (e : error) (es : list error) (w' : world)
    (x : error) :
  validate E c raw w = (Err e es, w') →
  x ∈ e :: es →
  ∃ f, f ∈ fields c ∧ error_of E f raw x.
Proof.
  intros (vals & Hfs)%validate_Err Hx. by eapply validate_fields_errors.
Qed.

Lemma every_error_has_its_field_witness :
  ∃ f, f ∈ fields OrderCreate ∧
       error_of Ref.ticking f (<["quantity" := VStr "two"]> (delete "item" Ref.laptop))
         (Error [Key "quantity"] (invalid TInt)).
Proof.
  destruct (validate Ref.ticking OrderCreate
              (<["quantity" := VStr "two"]> (delete "item" Ref.laptop)) Ref.start)
    as [[rec|e es] w'] eqn:Hv; [by vm_compute in Hv|].
  apply (every_error_has_its_field Ref.ticking OrderCreate _ Ref.start e es w' _ Hv).
  vm_compute in Hv. injection Hv as <- <- _.
  apply list_elem_of_further, list_elem_of_here.
Defined.

(** ** What an instance holds *)

(** The declarations of the eight classes: no name is declared twice, and a
    default that is not an instance of the annotation is the [None] of a
    Person field. *)
Lemma class_shape (F : family) (c : schema) :
  F ∈ [Order; Payment] → c ∈ classes F →
  NoDup (names (fields c)) ∧
  ∀ f, f ∈ fields c →
    default_typed f ∨ (ftyp f = TPersonBase ∧ fdef f = Default VNone).
Proof.
  intros HF Hc.
  apply elem_of_cons in HF as [->|HF]; [|apply list_elem_of_singleton in HF as ->];
    unfold classes in Hc;
    repeat (apply elem_of_cons in Hc as [->|Hc]); try (by apply elem_of_nil in Hc);
    (split; [compute_done|]); intros f Hf; each_field Hf;
    first [left; vm_compute; exact I | right; split; reflexivity].
Qed.

Lemma instance_value_typed (E : collaborators) (F : family) (c : schema)
    (raw : gmap string value) (w : world) (rec : model) (w' : world) (f : field) :
  F ∈ [Order; Payment] → c ∈ classes F →
  validate E c raw w = (Ok rec, w') → f ∈ fields c →
  ∃ v, values rec !! fname f = Some v ∧
       (has_type (ftyp f) v ∨ (ftyp f = TPersonBase ∧ raw !! fname f = None ∧ v = VNone)).
Proof.
  intros HF Hc (Hfs & _ & _)%validate_Ok Hf.
  destruct (class_shape F c HF Hc) as [Hnd Htyped].
  destruct (validate_fields_value E _ _ _ _ _ _ Hfs Hnd Hf) as (v & Hv & Hfv).
  exists v. split; [done|].
  unfold field_value in Hfv.
  destruct (raw !! fname f) as [x|] eqn:Hraw; [left; by eapply coerce_has_type|].
  destruct (Htyped f Hf) as [Hd|[Hp Hd]].
  - left. unfold default_typed in Hd. destruct (fdef f).
    + done.
    + by subst.
    + destruct Hfv as [n ->]. apply bool_decide_unpack in Hd. by rewrite Hd.
    + destruct Hfv as [n ->]. apply bool_decide_unpack in Hd. by rewrite Hd.
  - right. rewrite Hd in Hfv. by subst.
Qed.

Lemma instance_dom (E : collaborators) (c : schema)
    (raw : gmap string value) (w : world) (rec : model) (w' : world) :
  validate E c raw w = (Ok rec, w') →
  dom (values rec) = list_to_set (names (fields c)).
Proof.
  intros (Hfs & _ & _)%validate_Ok.
  apply set_eq. intros k. rewrite elem_of_dom, elem_of_list_to_set. split.
  - by eapply validate_fields_dom.
  - intros (f & -> & Hf)%list_elem_of_fmap. by eapply validate_fields_total.
Qed.

(** X3: an instance of any of the eight classes has a value for every
    declared field and for nothing else; [model_fields_set] is the set of
    declared names the payload supplied; and every value is an instance of
    its field's annotation, with one exception: the [None] of a Person field
    ([customer], [sender], [receiver]) the payload left out. *)
Theorem instance_invariant (E : collaborators) (F : family) (c : schema)
    (raw : gmap string value) (w : world) (rec : model) (w' : world) :
  F ∈ [Order; Payment] → c ∈ classes F →
  validate E c raw w = (Ok rec, w') →
  cls rec = cname c ∧
  dom (values rec) = list_to_set (names (fields c)) ∧
  (∀ k, k ∈ fields_set rec ↔ k ∈ names (fields c) ∧ is_Some (raw !! k)) ∧
  (∀ f v, f ∈ fields c → values rec !! fname f = Some v →
     has_type (ftyp f) v ∨ (ftyp f = TPersonBase ∧ raw !! fname f = None ∧ v = VNone)).
Proof.
  intros HF Hc Hv. pose proof Hv as (_ & Hcls & Hset)%validate_Ok.
  split; [done|]. split; [|split].
  - by eapply instance_dom.
  - intros k. rewrite Hset, elem_of_intersection, elem_of_dom, elem_of_list_to_set. tauto.
  - intros f v Hf Hfv.
    destruct (instance_value_typed E F c raw w rec w' f HF Hc Hv Hf) as (v' & Hv' & Hty).
    by assert (v' = v) as -> by congruence.
Qed.

Lemma instance_invariant_witness :
  ∃ rec w',
    validate Ref.ticking OrderRead Ref.laptop Ref.start = (Ok rec, w') ∧
    dom (values rec) = list_to_set (names (fields OrderRead)).
Proof.
  destruct (validate Ref.ticking OrderRead Ref.laptop Ref.start) as [[rec|] w'] eqn:Hv;
    [|by vm_compute in Hv].
  destruct (instance_invariant Ref.ticking Order OrderRead Ref.laptop Ref.start rec w')
    as (_ & Hdom & _).
  - apply list_elem_of_here.
  - unfold classes. do 3 apply list_elem_of_further. apply list_elem_of_here.
  - exact Hv.
  - by exists rec, w'.
Defined.

(** ** What a Person field takes *)

Lemma coerce_person_rejects (E : collaborators) (t : ftype) (v : value) :
  person_input v = false →
  t = TPersonBase ∨ (t = TOptional TPersonBase ∧ v ≠ VNone) →
  coerce E t v = Err (Error [] (invalid TPersonBase)) [].
Proof.
  intros Hv [->|[-> Hn]]; destruct v; cbn in *; try done;
    by case_bool_decide.
Qed.

(** X4: a Person field takes a mapping or a [PersonBase] instance and nothing
    else.  Any other value (a list, a string, a number, and in the Base,
    Create and Read classes also [None]) is rejected with an entry at that
    field, whatever the Person validator does; in the Update classes [None]
    is the one other value taken. *)
Theorem person_field_rejects_other_values (E : collaborators) (F : family) (c : schema)
    (f : field) (v : value) (raw : gmap string value) (w : world) :
  F ∈ [Order; Payment] → c ∈ classes F → f ∈ fields c →
  raw !! fname f = Some v →
  person_input v = false →
  ftyp f = TPersonBase ∨ (ftyp f = TOptional TPersonBase ∧ v ≠ VNone) →
  ∃ e es w', validate E c raw w = (Err e es, w') ∧
             Error [Key (fname f)] (invalid TPersonBase) ∈ e :: es.
Proof.
  intros HF Hc Hf Hraw Hv Hty.
  destruct (class_shape F c HF Hc) as [Hnd _].
  unfold validate.
  destruct (validate_fields E (fields c) raw w) as [[vals errs] w'] eqn:Hfs.
  pose proof (validate_fields_present E _ _ _ _ _ _ _ v Hfs Hnd Hf Hraw) as Hp.
  rewrite (coerce_person_rejects E _ _ Hv Hty) in Hp.
  destruct errs as [|e es]; [by apply elem_of_nil in Hp|]. by exists e, es, w'.
Qed.

Lemma person_field_rejects_other_values_witness :
  ∃ e es w',
    validate Ref.ticking OrderCreate (<["customer" := VNone]> Ref.laptop) Ref.start
      = (Err e es, w') ∧
    Error [Key "customer"] (invalid TPersonBase) ∈ e :: es.
Proof.
  apply (person_field_rejects_other_values Ref.ticking Order OrderCreate
           (Field "customer" TPersonBase (Default VNone)) VNone).
  - apply list_elem_of_here.
  - unfold classes. apply list_elem_of_further, list_elem_of_here.
  - in_fields.
  - reflexivity.
  - reflexivity.
  - by left.
Defined.

(** ** What validation does to the generator and the clock *)

Lemma validate_world (E : collaborators) (c : schema) (raw : gmap string value) (w : world) :
  (validate E c raw w).2 = (validate_fields E (fields c) raw w).2.
Proof.
  unfold validate. destruct (validate_fields E (fields c) raw w) as [[vals errs] w'].
  by destruct errs.
Qed.

(** X5: validating an Update payload never draws an identifier and never
    reads the clock, whether the payload is accepted or rejected. *)
Theorem update_calls_no_factory (E : collaborators) (raw : gmap string value) (w : world) :
  (validate_update E Order raw w).2 = w ∧ (validate_update E Payment raw w).2 = w.
Proof.
  split; unfold validate_update; rewrite validate_world.
  - destruct (validate_fields E (fields (Update Order)) raw w) as [[vals errs] w'] eqn:Hfs.
    eapply validate_fields_quiet; [exact Hfs|].
    intros f Hf. right. each_field Hf; eauto.
  - destruct (validate_fields E (fields (Update Payment)) raw w) as [[vals errs] w'] eqn:Hfs.
    eapply validate_fields_quiet; [exact Hfs|].
    intros f Hf. right. each_field Hf; eauto.
Qed.

Lemma head_id_world (E : collaborators) (rest : list field)
    (raw : gmap string value) (w : world) :
  (∀ f, f ∈ rest → fdef f = Required ∨ ∃ d, fdef f = Default d) →
  (validate_fields E (Field "id" TUUID Factory_uuid4 :: rest) raw w).2 =
  match raw !! "id" with
  | Some _ => w
  | None => World (S (ids_drawn w)) (clock_reads w)
  end.
Proof.
  intros Hrest. rewrite validate_fields_cons.
  destruct (validate_field E _ raw w) as [r w1] eqn:Hid.
  destruct (validate_fields E rest raw w1) as [[vals' errs'] w2] eqn:Hfs.
  assert (w2 = w1) as ->.
  { eapply validate_fields_quiet; [done|]. intros f Hf. right. by apply Hrest. }
  cbn [snd]. unfold validate_field in Hid. cbn [fname] in Hid.
  destruct (raw !! "id"); by injection Hid as _ <-.
Qed.

(** X6: validating a Create payload never reads the clock, and draws an
    identifier exactly when the payload has no [id], one identifier, also
    when the payload is then rejected for another field. *)
Theorem create_draws_id_only_when_absent (E : collaborators)
    (raw : gmap string value) (w : world) :
  (validate_create E Order raw w).2 =
    match raw !! "id" with
    | Some _ => w
    | None => World (S (ids_drawn w)) (clock_reads w)
    end ∧
  (validate_create E Payment raw w).2 =
    match raw !! "id" with
    | Some _ => w
    | None => World (S (ids_drawn w)) (clock_reads w)
    end.
Proof.
  split; unfold validate_create; rewrite validate_world;
    apply head_id_world; intros f Hf; each_field Hf; eauto.
Qed.

Lemma validate_fields_clock_supplied (E : collaborators) (fs : list field)
    (raw : gmap string value) (w : world) (vals : gmap string value)
    (errs : list error) (w' : world) :
  validate_fields E fs raw w = (vals, errs, w') →
  (∀ f, f ∈ fs → fdef f ≠ Factory_utcnow ∨ is_Some (raw !! fname f)) →
  clock_reads w' = clock_reads w.
Proof.
  revert w vals errs w'. induction fs as [|f fs IH]; intros w vals errs w'.
  - by intros [= _ _ <-].
  - rewrite validate_fields_cons.
    destruct (validate_field E f raw w) as [r w1] eqn:Hf.
    destruct (validate_fields E fs raw w1) as [[vals' errs'] w2] eqn:Hrest.
    intros [= _ _ <-] Hq.
    rewrite (IH _ _ _ _ Hrest) by (intros; apply Hq; by apply list_elem_of_further).
    unfold validate_field, default_of in Hf.
    destruct (Hq f) as [Hn|[x Hx]]; [apply list_elem_of_here|..].
    + destruct (raw !! fname f); [by injection Hf as _ <-|].
      destruct (fdef f); by injection Hf as _ <-.
    + rewrite Hx in Hf. by injection Hf as _ <-.
Qed.

(** ** Timestamps a Read payload supplies *)

(** X7: the Read classes take [created_at] and [updated_at] from the payload
    like any other field.  A payload that supplies both as datetimes, and
    whose Base fields are accepted, validates; the instance holds the two
    values as given, the clock is not read, and no order between the two is
    required: [updated_at] may be earlier than [created_at]. *)
Theorem read_takes_supplied_stamps (E : collaborators) (F : family)
    (raw : gmap string value) (w : world) (c u : Z) :
  F ∈ [Order; Payment] →
  raw !! "created_at" = Some (VDateTime c) →
  raw !! "updated_at" = Some (VDateTime u) →
  (∀ f, f ∈ fields (Base F) → accepted E f raw) →
  ∃ rd w',
    validate E (Read F) raw w = (Ok rd, w') ∧
    values rd !! "created_at" = Some (VDateTime c) ∧
    values rd !! "updated_at" = Some (VDateTime u) ∧
    clock_reads w' = clock_reads w.
Proof.
  intros HF Hc Hu Hbase.
  destruct (family_shape F HF) as (_ & Hread & _ & _ & _ & Hclock & _).
  destruct (class_shape F (Read F) HF) as [Hnd _].
  { unfold classes. do 3 apply list_elem_of_further. apply list_elem_of_here. }
  assert (Field "created_at" TDateTime Factory_utcnow ∈ fields (Read F)) as Hfc.
  { rewrite Hread. apply elem_of_app. right. apply list_elem_of_here. }
  assert (Field "updated_at" TDateTime Factory_utcnow ∈ fields (Read F)) as Hfu.
  { rewrite Hread. apply elem_of_app. right. apply list_elem_of_further, list_elem_of_here. }
  destruct (validate_accepted E (Read F) raw w) as (rd & w' & Hv).
  { intros f. rewrite Hread. intros [Hf|Hf]%elem_of_app; [by apply Hbase|].
    unfold stamps in Hf. apply elem_of_cons in Hf as [->|Hf];
      [|apply list_elem_of_singleton in Hf as ->]; unfold accepted; cbn [fname ftyp].
    - by rewrite Hc.
    - by rewrite Hu. }
  exists rd, w'. split; [done|].
  apply validate_Ok in Hv as (Hfs & _ & _).
  split; [|split].
  - exact (validate_fields_present E _ _ _ _ _ _ _ _ Hfs Hnd Hfc Hc).
  - exact (validate_fields_present E _ _ _ _ _ _ _ _ Hfs Hnd Hfu Hu).
  - eapply validate_fields_clock_supplied; [exact Hfs|].
    intros f. rewrite Hread. intros [Hf|Hf]%elem_of_app; [left; by apply Hclock|].
    right. unfold stamps in Hf. apply elem_of_cons in Hf as [->|Hf];
      [|apply list_elem_of_singleton in Hf as ->]; cbn [fname]; by eexists.
Qed.

Lemma read_takes_supplied_stamps_witness :
  ∃ rd w',
    validate Ref.ticking OrderRead
      (<["created_at" := VDateTime Ref.t0]>
         (<["updated_at" := VDateTime (Ref.t0 - 86400000000)]> Ref.laptop)) Ref.start
      = (Ok rd, w') ∧
    values rd !! "created_at" = Some (VDateTime Ref.t0) ∧
    values rd !! "updated_at" = Some (VDateTime (Ref.t0 - 86400000000)) ∧
    clock_reads w' = clock_reads Ref.start.
Proof.
  apply (read_takes_supplied_stamps Ref.ticking Order).
  - apply list_elem_of_here.
  - reflexivity.
  - reflexivity.
  - intros f Hf. each_field Hf; done.
Defined.

(** ** Update against Base *)

(** Exhibits the Base declaration of the field named in the goal. *)
Ltac base_field :=
  lazymatch goal with
  | |- ∃ g, g ∈ fields ?c ∧ fname g = ?k ∧ _ =>
      let r := eval vm_compute in (find (λ g, bool_decide (fname g = k)) (fields c)) in
      lazymatch r with
      | Some ?g => exists g; split; [in_fields | split; [reflexivity|]]
      end
  end.

(** X8: an Update class declares the fields of its Base other than [id], under
    the same names, and validates a value other than [None] for a field
    exactly as the Base does: the same validated value or the same errors. *)
Theorem update_validates_as_base (E : collaborators) (F : family) (f : field) (v : value) :
  F ∈ [Order; Payment] →
  f ∈ fields (Update F) →
  v ≠ VNone →
  names (fields (Update F)) = filter (λ k, k ≠ "id") (names (fields (Base F))) ∧
  ∃ g, g ∈ fields (Base F) ∧ fname g = fname f ∧
       coerce E (ftyp f) v = coerce E (ftyp g) v.
Proof.
  intros HF Hf Hv.
  apply elem_of_cons in HF as [->|HF]; [|apply list_elem_of_singleton in HF as ->];
    (split; [reflexivity|]); each_field Hf; base_field; by destruct v.
Qed.

Lemma update_validates_as_base_witness :
  ∃ g, g ∈ fields (Base Order) ∧ fname g = "quantity" ∧
       coerce Ref.ticking (TOptional TInt) (VStr "two") = coerce Ref.ticking (ftyp g) (VStr "two").
Proof.
  apply (update_validates_as_base Ref.ticking Order
           (Field "quantity" (TOptional TInt) (Default VNone)) (VStr "two")).
  - apply list_elem_of_here.
  - in_fields.
  - done.
Defined.

(** ** Payloads without any declared key *)

(** X9: an Update payload that has none of the declared keys (the empty
    payload, or one of undeclared keys only) validates: every field is
    [None], no field counts as supplied, the partial record is empty, and
    neither the generator nor the clock is touched. *)
Theorem update_without_declared_keys (E : collaborators) (F : family)
    (raw : gmap string value) (w : world) :
  F ∈ [Order; Payment] →
  (∀ k, k ∈ names (fields (Update F)) → raw !! k = None) →
  ∃ upd,
    validate_update E F raw w = (Ok upd, w) ∧
    fields_set upd = ∅ ∧
    partial_record upd = ∅ ∧
    ∀ k, k ∈ names (fields (Update F)) → values upd !! k = Some VNone.
Proof.
  intros HF Hnone. unfold validate_update.
  rewrite (validate_agree E _ raw ∅) by (intros k Hk; by rewrite Hnone, lookup_empty).
  apply elem_of_cons in HF as [->|HF]; [|apply list_elem_of_singleton in HF as ->];
    (eexists; split; [vm_compute; reflexivity|]);
    (split; [vm_compute; reflexivity|]); (split; [vm_compute; reflexivity|]);
    intros k Hk; vm_compute in Hk;
    repeat (apply elem_of_cons in Hk as [->|Hk]; [reflexivity|]);
    by apply elem_of_nil in Hk.
Qed.

Lemma update_without_declared_keys_witness :
  ∃ upd,
    validate_update Ref.ticking Order {[ "id" := VStr "not-a-uuid" ]} Ref.start
      = (Ok upd, Ref.start) ∧
    fields_set upd = ∅ ∧
    partial_record upd = ∅.
Proof.
  destruct (update_without_declared_keys Ref.ticking Order
              {[ "id" := VStr "not-a-uuid" ]} Ref.start) as (upd & Hv & Hset & Hpart & _).
  - apply list_elem_of_here.
  - intros k Hk. vm_compute in Hk.
    repeat (apply elem_of_cons in Hk as [->|Hk]; [reflexivity|]).
    by apply elem_of_nil in Hk.
  - by exists upd.
Defined.

(** X10: a Create payload that has none of the declared keys is rejected with
    exactly one [missing] entry for each required field, in the order of
    declaration, and nothing else; the identifier for the absent [id] has
    been drawn all the same. *)
Theorem create_without_declared_keys (E : collaborators) (F : family)
    (raw : gmap string value) (w : world) :
  F ∈ [Order; Payment] →
  (∀ k, k ∈ names (fields (Create F)) → raw !! k = None) →
  ∃ e es,
    validate_create E F raw w = (Err e es, World (S (ids_drawn w)) (clock_reads w)) ∧
    e :: es = (λ k, Error [Key k] missing) <$> required (Create F).
Proof.
  intros HF Hnone. unfold validate_create.
  rewrite (validate_agree E _ raw ∅) by (intros k Hk; by rewrite Hnone, lookup_empty).
  apply elem_of_cons in HF as [->|HF]; [|apply list_elem_of_singleton in HF as ->];
    (eexists _, _; split; [vm_compute; reflexivity|vm_compute; reflexivity]).
Qed.

Lemma create_without_declared_keys_witness :
  validate_create Ref.ticking Payment ∅ Ref.start =
  (Err (Error [Key "amount"] missing)
     [Error [Key "currency"] missing; Error [Key "status"] missing;
      Error [Key "method"] missing],
   World 1 0).
Proof.
  destruct (create_without_declared_keys Ref.ticking Payment ∅ Ref.start)
    as (e & es & Hv & Herrs).
  - apply list_elem_of_further, list_elem_of_here.
  - intros k _. apply lookup_empty.
  - rewrite Hv. vm_compute in Herrs. by injection Herrs as -> ->.
Defined.

(** ** An instance validated again *)

(** X11: the field values of an instance, given back to its class as a
    payload, validate to the same field values, without drawing an identifier
    or reading the clock, provided no Person field holds [None]; in the new
    instance every declared field counts as supplied, whatever the first
    payload had left out. *)
Theorem instance_validates_again (E : collaborators) (F : family) (c : schema)
    (raw : gmap string value) (w : world) (rec : model) (w' : world) :
  F ∈ [Order; Payment] → c ∈ classes F →
  validate E c raw w = (Ok rec, w') →
  (∀ f, f ∈ fields c → ftyp f = TPersonBase → values rec !! fname f ≠ Some VNone) →
  ∃ rec2,
    validate E c (values rec) w' = (Ok rec2, w') ∧
    values rec2 = values rec ∧
    fields_set rec2 = list_to_set (names (fields c)).
Proof.
  intros HF Hc Hv Hpersons.
  pose proof (instance_dom E c raw w rec w' Hv) as Hdom.
  destruct (validate_fields_typed E (fields c) (values rec) w') as (vals & Hvals & Hsame).
  { intros f Hf.
    destruct (instance_value_typed E F c raw w rec w' f HF Hc Hv Hf) as (v & Hrec & Hty).
    exists v. split; [done|]. destruct Hty as [Hty|(Hp & _ & ->)]; [done|].
    by destruct (Hpersons f Hf Hp). }
  exists (Model (cname c) vals (dom (values rec) ∩ list_to_set (names (fields c)))).
  split; [|split].
  - unfold validate. by rewrite Hvals.
  - cbn [values]. apply map_eq. intros k.
    destruct (decide (k ∈ names (fields c))) as [(f & -> & Hf)%list_elem_of_fmap|Hk].
    + by apply Hsame.
    + transitivity (@None value).
      * apply eq_None_not_Some. intros Hs. apply Hk. by eapply validate_fields_dom.
      * symmetry. apply not_elem_of_dom. rewrite Hdom, elem_of_list_to_set. done.
  - cbn [fields_set]. rewrite Hdom. apply set_eq. intros k.
    rewrite elem_of_intersection. tauto.
Qed.

Lemma instance_validates_again_witness :
  ∃ upd upd2,
    validate_update Ref.ticking Order {[ "quantity" := VInt 5 ]} Ref.start
      = (Ok upd, Ref.start) ∧
    validate_update Ref.ticking Order (values upd) Ref.start = (Ok upd2, Ref.start) ∧
    fields_set upd = {[ "quantity" ]} ∧
    fields_set upd2 = {[ "customer"; "item"; "quantity"; "price_per_item"; "order_date" ]}.
Proof.
  destruct (validate_update Ref.ticking Order {[ "quantity" := VInt 5 ]} Ref.start)
    as [[upd|] w'] eqn:Hv; [|by vm_compute in Hv].
  assert (w' = Ref.start ∧ fields_set upd = {[ "quantity" ]}) as [-> Hset].
  { vm_compute in Hv. by injection Hv as <- <-. }
  destruct (instance_validates_again Ref.ticking Order OrderUpdate
              {[ "quantity" := VInt 5 ]} Ref.start upd Ref.start)
    as (upd2 & Hv2 & _ & Hset2).
  - apply list_elem_of_here.
  - unfold classes. do 2 apply list_elem_of_further. apply list_elem_of_here.
  - exact Hv.
  - intros f Hf Hty. each_field Hf; done.
  - exists upd, upd2. repeat split; [exact Hv2|exact Hset|].
    rewrite Hset2. reflexivity.
Defined.

(** ** The optional date of a Payment *)

(** X12: [birth_date] of a Payment is [Optional] with the default [None] in
    the Base, Create and Read classes too.  Giving it an explicit [None] and
    leaving it out lead to the same outcome: the same errors if the payload is
    rejected, and otherwise the same field values, the field counting as
    supplied only when the key is present. *)
Theorem payment_birth_date_null_or_absent (E : collaborators) (c : schema)
    (raw : gmap string value) (w : world) :
  c ∈ [PaymentBase; PaymentCreate; PaymentRead] →
  raw !! "birth_date" = None →
  (∀ rec w', validate E c raw w = (Ok rec, w') →
     ∃ rec0, validate E c (<["birth_date" := VNone]> raw) w = (Ok rec0, w') ∧
             values rec0 = values rec ∧
             values rec !! "birth_date" = Some VNone ∧
             fields_set rec0 = {[ "birth_date" ]} ∪ fields_set rec) ∧
  (∀ e es w', validate E c raw w = (Err e es, w') →
     validate E c (<["birth_date" := VNone]> raw) w = (Err e es, w')).
Proof.
  intros Hc Hnone.
  assert (validate_fields E (fields c) (<["birth_date" := VNone]> raw) w
          = validate_fields E (fields c) raw w ∧
          NoDup (names (fields c)) ∧
          Field "birth_date" (TOptional TDate) (Default VNone) ∈ fields c) as (Heq & Hnd & Hin).
  { repeat (apply elem_of_cons in Hc as [->|Hc]); [..|by apply elem_of_nil in Hc];
      (split; [|split; [compute_done|in_fields]]);
      (apply validate_fields_null; [|done]); intros f Hf Hk; each_field Hf;
      first [done | by eauto]. }
  split.
  - intros rec w' Hv. pose proof Hv as (Hfs & _ & Hset)%validate_Ok.
    exists (Model (cname c) (values rec)
              (dom (<["birth_date" := VNone]> raw) ∩ list_to_set (names (fields c)))).
    split; [|split; [done|split]].
    + unfold validate. by rewrite Heq, Hfs.
    + exact (validate_fields_default E _ _ _ _ _ _ _ Hfs Hnd Hin Hnone eq_refl).
    + cbn [fields_set]. rewrite Hset, dom_insert_L. apply set_eq. intros k.
      rewrite !elem_of_union, !elem_of_intersection, elem_of_union, elem_of_singleton,
        elem_of_list_to_set.
      split; [tauto|]. intros [->|?]; [|tauto]. split; [by left|].
      by apply (list_elem_of_fmap_2 fname _ _ Hin).
  - intros e es w' (vals & Hfs)%validate_Err. unfold validate. by rewrite Heq, Hfs.
Qed.

Lemma payment_birth_date_null_or_absent_witness :
  ∃ e es w',
    validate Ref.ticking PaymentCreate {[ "birth_date" := VNone; "amount" := VInt 3 ]} Ref.start
      = (Err e es, w') ∧
    Error [Key "currency"] missing ∈ e :: es.
Proof.
  destruct (validate Ref.ticking PaymentCreate {[ "amount" := VInt 3 ]} Ref.start)
    as [[rec|e es] w'] eqn:Hv; [by vm_compute in Hv|].
  destruct (payment_birth_date_null_or_absent Ref.ticking PaymentCreate
              {[ "amount" := VInt 3 ]} Ref.start) as [_ Herr].
  - apply list_elem_of_further, list_elem_of_here.
  - reflexivity.
  - exists e, es, w'. split; [exact (Herr e es w' Hv)|].
    vm_compute in Hv. injection Hv as <- <- _.
    apply list_elem_of_further, list_elem_of_here.
Defined.

(** ** Mappings in a Person field *)

Lemma validate_fields_reports (E : collaborators) (fs : list field)
    (raw : gmap string value) (w : world) (vals : gmap string value)
    (errs : list error) (w' : world) (f : field) (v : value) (y : error) :
  validate_fields E fs raw w = (vals, errs, w') →
  f ∈ fs → raw !! fname f = Some v →
  y ∈ errors (coerce E (ftyp f) v) → under (fname f) y ∈ errs.
Proof.
  revert w vals errs w'. induction fs as [|g fs IH]; intros w vals errs w'.
  - intros _ Hin. by apply elem_of_nil in Hin.
  - rewrite validate_fields_cons.
    destruct (validate_field E g raw w) as [r w1] eqn:Hg.
    destruct (validate_fields E fs raw w1) as [[vals' errs'] w2] eqn:Hrest.
    intros [= _ <- _] [->|Hin]%elem_of_cons Hsome Hy; apply elem_of_app.
    + left. rewrite (validate_field_present _ _ _ _ v) in Hg by done.
      injection Hg as <- _. rewrite errors_at_field. by apply list_elem_of_fmap_2.
    + right. by eapply IH.
Qed.

(** X13: a mapping in a Person field is handed to the Person validator.
    What the validator returns becomes the field's value, as a [PersonBase]
    instance; if it fails, the payload is rejected and every entry of the
    validator is reported with the field's name put in front of its
    location. *)
Theorem person_mapping_is_validated_as_person (E : collaborators) (F : family)
    (c : schema) (f : field) (kvs : list (string * value))
    (raw : gmap string value) (w : world) :
  F ∈ [Order; Payment] → c ∈ classes F → f ∈ fields c →
  ftyp f = TPersonBase ∨ ftyp f = TOptional TPersonBase →
  raw !! fname f = Some (VDict kvs) →
  match person E kvs with
  | Ok p =>
      ∀ rec w', validate E c raw w = (Ok rec, w') →
                values rec !! fname f = Some (VModel "PersonBase" p)
  | Err e es =>
      ∃ e' es' w', validate E c raw w = (Err e' es', w') ∧
                   ∀ y, y ∈ e :: es → under (fname f) y ∈ e' :: es'
  end.
Proof.
  intros HF Hc Hf Hty Hraw.
  destruct (class_shape F c HF Hc) as [Hnd _].
  assert (coerce E (ftyp f) (VDict kvs) =
          match person E kvs with
          | Ok p => Ok (VModel "PersonBase" p)
          | Err e es => Err e es
          end) as Hco by (by destruct Hty as [-> | ->]).
  destruct (person E kvs) as [p|e es] eqn:Hp.
  - intros rec w' (Hfs & _ & _)%validate_Ok.
    pose proof (validate_fields_present E _ _ _ _ _ _ _ _ Hfs Hnd Hf Hraw) as Hv.
    by rewrite Hco in Hv.
  - unfold validate.
    destruct (validate_fields E (fields c) raw w) as [[vals errs] w'] eqn:Hfs.
    assert (∀ y, y ∈ e :: es → under (fname f) y ∈ errs) as Hall.
    { intros y Hy. eapply validate_fields_reports; [exact Hfs|done..|]. by rewrite Hco. }
    destruct errs as [|e' es'].
    + specialize (Hall e (list_elem_of_here _ _)). by apply elem_of_nil in Hall.
    + by exists e', es', w'.
Qed.

Lemma person_mapping_is_validated_as_person_witness :
  ∃ e es w',
    validate
      (Collaborators Ref.ids (λ _, Ref.t0)
         (λ _, Err (Error [Key "addresses"; Index 0; Key "postal_code"] missing) [])
         (λ _, None) (λ _, None) (λ _, None) (λ _, None) (λ _, None))
      OrderCreate Ref.laptop Ref.start = (Err e es, w') ∧
    Error [Key "customer"; Key "addresses"; Index 0; Key "postal_code"] missing ∈ e :: es.
Proof.
  destruct (person_mapping_is_validated_as_person
              (Collaborators Ref.ids (λ _, Ref.t0)
                 (λ _, Err (Error [Key "addresses"; Index 0; Key "postal_code"] missing) [])
                 (λ _, None) (λ _, None) (λ _, None) (λ _, None) (λ _, None))
              Order OrderCreate (Field "customer" TPersonBase (Default VNone))
              (match Ref.ada with VDict kvs => kvs | _ => [] end)
              Ref.laptop Ref.start)
    as (e & es & w' & Hv & Hall).
  - apply list_elem_of_here.
  - unfold classes. apply list_elem_of_further, list_elem_of_here.
  - in_fields.
  - by left.
  - reflexivity.
  - exists e, es, w'. split; [exact Hv|apply (Hall _ (list_elem_of_here _ _))].
Defined.
